(** * md2docx: the renderer's interaction model and the conversion bridge

  A shallow embedding of the JavaScript sources of the md2docx desktop
  front-end:

  - [src/components/FileUploader.jsx]  (module [FileUploader]),
  - [src/components/Settings.jsx]      (modules [Settings], [Controls]),
  - [src/components/Converter.jsx]     (module [Converter]),
  - [src/App.jsx], in its two revisions (modules [App] and [AppNoError]),
    and the window its components make up (module [Ui]),
  - [electron/preload.js]              (module [Preload]),
  - [electron/main.js]                 (modules [Main], [MainProcess]),

  together with the parts of the JavaScript and Node.js run-time the
  handlers call: [String.prototype.endsWith], [parseFloat], the [||]
  operator on strings, and [path.posix]'s [dirname], [basename],
  [normalize] and [join] (modules [Js] and [NodePath]).

  JavaScript strings are modelled as [string]; a non-ASCII character is
  the sequence of its UTF-8 bytes.  React state slots are fields of a
  record, a setter replaces the field.  Paths are POSIX paths.  What lies
  outside the sources is an oracle: the bridge answers the renderer's
  request with an outcome, the converter process ends with an exit code
  and its output. *)

From Stdlib Require Import String Ascii ZArith List Lia Bool.
From Stdlib Require Import Decimal DecimalString DecimalN.
From stdpp Require Import gmap strings list fin_maps.

Open Scope string_scope.

(** ** JavaScript run-time helpers *)

Module Js.

(** [charCodeAt]: the character at index [i], if any. *)
Definition charAt (s : string) (i : nat) : option ascii := String.get i s.

(** [code === c] for the character, if any, at an index. *)
Definition isChar (c : ascii) (o : option ascii) : bool :=
  match o with
  | Some a => Ascii.eqb a c
  | None => false
  end.

(** [String.prototype.slice(start, end)]: a negative index counts from the
    end of the string, both are clamped to the string, and an empty range
    gives the empty string. *)
Definition clampIndex (len i : Z) : Z :=
  if (i <? 0)%Z then Z.max (len + i) 0 else Z.min i len.

Definition slice (s : string) (from to : Z) : string :=
  let len := Z.of_nat (String.length s) in
  let from' := clampIndex len from in
  let to' := clampIndex len to in
  substring (Z.to_nat from') (Z.to_nat (Z.max (to' - from') 0)) s.

(** [String.prototype.endsWith(searchString)], end position omitted:
    [start = len - searchLength]; a negative [start] answers [false],
    otherwise the code units from [start] on are compared. *)
Definition endsWith (s searchString : string) : bool :=
  let len := String.length s in
  let searchLength := String.length searchString in
  if (len <? searchLength)%nat then false
  else String.eqb (substring (len - searchLength) searchLength s) searchString.

(** [String.prototype.lastIndexOf(c)] for a one-character search string:
    the scan keeps the last index seen; [-1] when there is none. *)
Fixpoint lastIndexOf_from (s : string) (c : ascii) (i : Z) (found : Z) : Z :=
  match s with
  | EmptyString => found
  | String a s' =>
      lastIndexOf_from s' c (i + 1) (if Ascii.eqb a c then i else found)
  end.

Definition lastIndexOf (s : string) (c : ascii) : Z :=
  lastIndexOf_from s c 0 (-1).

(** Truthiness of a string: only the empty string is falsy. *)
Definition truthy (s : string) : bool := negb (String.eqb s "").

(** Truthiness of a value that is [null]/[undefined] or a string. *)
Definition truthy_opt (o : option string) : bool :=
  match o with
  | Some s => truthy s
  | None => false
  end.

(** What [{o && (...)}] renders from: the string when it is truthy. *)
Definition shown (o : option string) : option string :=
  match o with
  | Some s => if truthy s then Some s else None
  | None => None
  end.

(** [o || d] where [o] is [undefined] or a string and [d] a string. *)
Definition or_else (o : option string) (d : string) : string :=
  match o with
  | Some s => if truthy s then s else d
  | None => d
  end.

(** A Number, as far as [parseFloat] distinguishes results: [NaN], the
    infinities, and a decimal [(-1)^neg * mantissa * 10^exponent], the
    mathematical value of the parsed literal before it is rounded to a
    double. *)
Inductive Number : Type :=
| NaN
| Infinity (neg : bool)
| Decimal (neg : bool) (mantissa : N) (exponent : Z).

(** The values a settings field holds. *)
Inductive Value : Type :=
| VNum (n : Number)
| VStr (s : string).

Definition bytes (l : list nat) : string :=
  string_of_list_ascii (map ascii_of_nat l).

(** [p] is a prefix of [s]: the rest of [s]. *)
Fixpoint stripPrefix (p s : string) : option string :=
  match p, s with
  | EmptyString, _ => Some s
  | String a p', String b s' =>
      if Ascii.eqb a b then stripPrefix p' s' else None
  | String _ _, EmptyString => None
  end.

(** StrWhiteSpaceChar: TAB, LF, VT, FF, CR, SP, and in UTF-8 NBSP, U+1680,
    U+2000 to U+200A, LS, PS, U+202F, U+205F, U+3000 and ZWNBSP. *)
Definition whiteSpace : list string :=
  map bytes
    [ [9]; [10]; [11]; [12]; [13]; [32]; [194; 160]; [225; 154; 128];
      [226; 128; 128]; [226; 128; 129]; [226; 128; 130]; [226; 128; 131];
      [226; 128; 132]; [226; 128; 133]; [226; 128; 134]; [226; 128; 135];
      [226; 128; 136]; [226; 128; 137]; [226; 128; 138]; [226; 128; 168];
      [226; 128; 169]; [226; 128; 175]; [226; 129; 159]; [227; 128; 128];
      [239; 187; 191] ]%nat.

Fixpoint dropOne (ws : list string) (s : string) : option string :=
  match ws with
  | [] => None
  | w :: ws' =>
      match stripPrefix w s with
      | Some r => Some r
      | None => dropOne ws' s
      end
  end.

(** Leading white space removed; [fuel] bounds the number of characters
    dropped, the length of the string is enough. *)
Fixpoint trimStart (fuel : nat) (s : string) : string :=
  match fuel with
  | O => s
  | S fuel' =>
      match dropOne whiteSpace s with
      | Some r => trimStart fuel' r
      | None => s
      end
  end.

Definition digit (c : ascii) : option N :=
  let n := N_of_ascii c in
  if ((48 <=? n) && (n <=? 57))%N then Some (n - 48)%N else None.

(** The longest run of decimal digits at the head of [s]: the value
    accumulated on [acc], how many digits were read, and the rest. *)
Fixpoint digits (s : string) (acc : N) (count : nat) : N * nat * string :=
  match s with
  | EmptyString => (acc, count, s)
  | String c s' =>
      match digit c with
      | Some d => digits s' (acc * 10 + d)%N (S count)
      | None => (acc, count, s)
      end
  end.

Definition sign (s : string) : bool * string :=
  match s with
  | String "-" r => (true, r)
  | String "+" r => (false, r)
  | _ => (false, s)
  end.

(** ExponentPart, when present and well formed; [0] otherwise. *)
Definition exponentPart (s : string) : Z :=
  match s with
  | String c r =>
      if Ascii.eqb c "e" || Ascii.eqb c "E" then
        let (neg, r') := sign r in
        let '(v, count, _) := digits r' 0%N 0%nat in
        if (count =? 0)%nat then 0%Z
        else if neg then (- Z.of_N v)%Z else Z.of_N v
      else 0%Z
  | EmptyString => 0%Z
  end.

(** [parseFloat(string)]: white space is skipped, then the longest prefix
    that is a StrDecimalLiteral is read; [NaN] when there is none. *)
Definition parseFloat (input : string) : Number :=
  let trimmed := trimStart (String.length input) input in
  let (neg, s) := sign trimmed in
  match stripPrefix "Infinity" s with
  | Some _ => Infinity neg
  | None =>
      let '(m1, n1, r1) := digits s 0%N 0%nat in
      let '(m2, n2, r2) :=
        match r1 with
        | String "." r => digits r m1 0%nat
        | _ => (m1, 0%nat, r1)
        end in
      if (n1 + n2 =? 0)%nat then NaN
      else Decimal neg m2 (exponentPart r2 - Z.of_nat n2)
  end.

End Js.

(** A DOM [File]: the fields the application reads. *)
Module Dom.

Record File : Type := mkFile {
  name : string;
  size : N;
  path : string
}.

End Dom.

(** ** Node.js [path.posix]

    After Node's [lib/path.js].  The loops over string indices are
    recursions on the index; [normalizeString] keeps the characters read
    since the last separator (the source's [path.slice(lastSlash + 1, i)])
    in [seg], so [lastSlash === i - 1] reads [seg = ""]. *)

Module NodePath.

Import Js.

Definition sameCode (a b : option ascii) : bool :=
  match a, b with
  | Some x, Some y => Ascii.eqb x y
  | _, _ => false
  end.

(** *** [dirname] *)

(** The loop [for (i = path.length - 1; i >= 1; --i)], entered at [i = n]:
    the value of [end] when it stops, [-1] if it was never set. *)
Fixpoint dirname_loop (path : string) (n : nat) (matchedSlash : bool) : Z :=
  match n with
  | O => (-1)%Z
  | S i' =>
      if isChar "/" (charAt path n) then
        if negb matchedSlash then Z.of_nat n
        else dirname_loop path i' matchedSlash
      else dirname_loop path i' false
  end.

Definition dirname (path : string) : string :=
  if (String.length path =? 0)%nat then "."
  else
    let hasRoot := isChar "/" (charAt path 0) in
    let end_ := dirname_loop path (String.length path - 1) true in
    if (end_ =? -1)%Z then (if hasRoot then "/" else ".")
    else if hasRoot && (end_ =? 1)%Z then "//"
    else slice path 0 end_.

(** *** [basename] *)

Record bstate : Type := mkB {
  start : Z;
  end_ : Z;
  matchedSlash : bool;
  extIdx : Z;
  firstNonSlashEnd : Z
}.

Definition binit (suffix : string) : bstate :=
  {| start := 0; end_ := -1; matchedSlash := true;
     extIdx := Z.of_nat (String.length suffix) - 1;
     firstNonSlashEnd := -1 |}.

(** The body of the loop of the branch with a suffix when the character
    [code] at index [i] is not a separator. *)
Definition extMatch (suffix : string) (i : nat) (code : option ascii)
  (st : bstate) : bstate :=
  let st1 :=
    if (firstNonSlashEnd st =? -1)%Z then
      {| start := start st; end_ := end_ st; matchedSlash := false;
         extIdx := extIdx st; firstNonSlashEnd := Z.of_nat i + 1 |}
    else st in
  if (0 <=? extIdx st1)%Z then
    if sameCode code (charAt suffix (Z.to_nat (extIdx st1))) then
      let extIdx' := (extIdx st1 - 1)%Z in
      {| start := start st1;
         end_ := if (extIdx' =? -1)%Z then Z.of_nat i else end_ st1;
         matchedSlash := matchedSlash st1; extIdx := extIdx';
         firstNonSlashEnd := firstNonSlashEnd st1 |}
    else
      {| start := start st1; end_ := firstNonSlashEnd st1;
         matchedSlash := matchedSlash st1; extIdx := -1;
         firstNonSlashEnd := firstNonSlashEnd st1 |}
  else st1.

(** [start = i + 1; break]. *)
Definition breakAt (i : nat) (st : bstate) : bstate :=
  {| start := Z.of_nat i + 1; end_ := end_ st;
     matchedSlash := matchedSlash st; extIdx := extIdx st;
     firstNonSlashEnd := firstNonSlashEnd st |}.

(** The loop of the branch with a suffix,
    [for (i = path.length - 1; i >= 0; --i)], entered at [i = n - 1]. *)
Fixpoint basename_ext_loop (path suffix : string) (n : nat) (st : bstate)
  : bstate :=
  match n with
  | O => st
  | S i =>
      let code := charAt path i in
      if isChar "/" code then
        if negb (matchedSlash st) then breakAt i st
        else basename_ext_loop path suffix i st
      else basename_ext_loop path suffix i (extMatch suffix i code st)
  end.

(** The body of the loop of the branch without a suffix for a character
    that is not a separator; only [start], [end] and [matchedSlash] are
    used. *)
Definition markEnd (i : nat) (st : bstate) : bstate :=
  if (end_ st =? -1)%Z then
    {| start := start st; end_ := Z.of_nat i + 1; matchedSlash := false;
       extIdx := extIdx st; firstNonSlashEnd := firstNonSlashEnd st |}
  else st.

Fixpoint basename_loop (path : string) (n : nat) (st : bstate) : bstate :=
  match n with
  | O => st
  | S i =>
      if isChar "/" (charAt path i) then
        if negb (matchedSlash st) then breakAt i st
        else basename_loop path i st
      else basename_loop path i (markEnd i st)
  end.

Definition basename (path : string) (suffix : option string) : string :=
  let len := String.length path in
  let plain :=
    let st := basename_loop path len (binit "") in
    if (end_ st =? -1)%Z then "" else slice path (start st) (end_ st) in
  match suffix with
  | Some sfx =>
      if (0 <? String.length sfx)%nat && (String.length sfx <=? len)%nat then
        if String.eqb sfx path then ""
        else
          let st := basename_ext_loop path sfx len (binit sfx) in
          let end' :=
            if (start st =? end_ st)%Z then firstNonSlashEnd st
            else if (end_ st =? -1)%Z then Z.of_nat len
            else end_ st in
          slice path (start st) end'
      else plain
  | None => plain
  end.

(** *** [normalize] and [join] *)

Record nstate : Type := mkN {
  res : string;
  lastSegmentLength : Z;
  seg : string;
  dots : Z;
  code : ascii
}.

Definition ninit : nstate :=
  {| res := ""; lastSegmentLength := 0; seg := ""; dots := 0;
     code := ascii_of_nat 0 |}.

(** After a separator: [lastSlash = i; dots = 0]. *)
Definition afterSlash (r : string) (l : Z) (c : ascii) : nstate :=
  {| res := r; lastSegmentLength := l; seg := ""; dots := 0; code := c |}.

(** The body of the loop of [normalizeString] when [code] is a separator. *)
Definition onSeparator (allowAboveRoot : bool) (c : ascii) (st : nstate)
  : nstate :=
  let r := res st in
  let rlen := String.length r in
  let aboveRoot :=
    if allowAboveRoot then
      afterSlash (if (0 <? rlen)%nat then r +:+ "/.." else "..") 2 c
    else afterSlash r (lastSegmentLength st) c in
  if String.eqb (seg st) "" || (dots st =? 1)%Z then
    afterSlash r (lastSegmentLength st) c
  else if (dots st =? 2)%Z then
    if (rlen <? 2)%nat || negb (lastSegmentLength st =? 2)%Z
       || negb (isChar "." (charAt r (rlen - 1)))
       || negb (isChar "." (charAt r (rlen - 2))) then
      if (2 <? rlen)%nat then
        let lastSlashIndex := lastIndexOf r "/" in
        if (lastSlashIndex =? -1)%Z then afterSlash "" 0 c
        else
          let r' := slice r 0 lastSlashIndex in
          afterSlash r'
            (Z.of_nat (String.length r') - 1 - lastIndexOf r' "/") c
      else if negb (rlen =? 0)%nat then afterSlash "" 0 c
      else aboveRoot
    else aboveRoot
  else
    afterSlash (if (0 <? rlen)%nat then r +:+ "/" +:+ seg st else seg st)
      (Z.of_nat (String.length (seg st))) c.

(** One iteration of the loop for the character [c] of the path. *)
Definition nstep (allowAboveRoot : bool) (st : nstate) (c : ascii) : nstate :=
  if Ascii.eqb c "/" then onSeparator allowAboveRoot c st
  else if Ascii.eqb c "." && negb (dots st =? -1)%Z then
    {| res := res st; lastSegmentLength := lastSegmentLength st;
       seg := seg st +:+ String c ""; dots := dots st + 1; code := c |}
  else
    {| res := res st; lastSegmentLength := lastSegmentLength st;
       seg := seg st +:+ String c ""; dots := -1; code := c |}.

Fixpoint nloop (allowAboveRoot : bool) (path : string) (st : nstate)
  : nstate :=
  match path with
  | EmptyString => st
  | String c path' => nloop allowAboveRoot path' (nstep allowAboveRoot st c)
  end.

(** [normalizeString]: after the last character, the iteration
    [i = path.length] stops if the last character was a separator and
    otherwise runs the body once more for a separator. *)
Definition normalizeString (path : string) (allowAboveRoot : bool) : string :=
  let st := nloop allowAboveRoot path ninit in
  if Ascii.eqb (code st) "/" then res st
  else res (onSeparator allowAboveRoot "/" st).

Definition normalize (path : string) : string :=
  let len := String.length path in
  if (len =? 0)%nat then "."
  else
    let isAbsolute := isChar "/" (charAt path 0) in
    let trailingSeparator := isChar "/" (charAt path (len - 1)) in
    let path' := normalizeString path (negb isAbsolute) in
    if (String.length path' =? 0)%nat then
      if isAbsolute then "/" else if trailingSeparator then "./" else "."
    else
      let path'' := if trailingSeparator then path' +:+ "/" else path' in
      if isAbsolute then "/" +:+ path'' else path''.

(** [join(...args)]: the non-empty arguments joined by ["/"], normalized. *)
Definition joinStep (joined : option string) (arg : string) : option string :=
  if (0 <? String.length arg)%nat then
    match joined with
    | None => Some arg
    | Some j => Some (j +:+ "/" +:+ arg)
    end
  else joined.

Definition join (args : list string) : string :=
  match fold_left joinStep args None with
  | None => "."
  | Some joined => normalize joined
  end.

End NodePath.

(** ** FileUploader.jsx *)

Module FileUploader.

Import Dom.

(** The [file] slot the component receives from [App] (with its setter)
    and its own [isDragging] slot. *)
Record state : Type := mkState {
  file : option File;
  isDragging : bool
}.

Definition setFile (f : option File) (st : state) : state :=
  {| file := f; isDragging := isDragging st |}.

Definition setIsDragging (b : bool) (st : state) : state :=
  {| file := file st; isDragging := b |}.

(** [droppedFile?.name.endsWith('.md')]: [undefined] (falsy) when there is
    no first file. *)
Definition accepts (droppedFile : option File) : bool :=
  match droppedFile with
  | Some f => Js.endsWith (name f) ".md"
  | None => false
  end.

(** [handleDrop]; [files] is [e.dataTransfer.files]. *)
Definition handleDrop (files : list File) (st : state) : state :=
  let st := setIsDragging false st in
  let droppedFile := head files in
  if accepts droppedFile then setFile droppedFile st else st.

Definition handleDragOver (st : state) : state := setIsDragging true st.

Definition handleDragLeave (st : state) : state := setIsDragging false st.

(** [handleFileSelect]; [files] is [e.target.files]. *)
Definition handleFileSelect (files : list File) (st : state) : state :=
  match head files with
  | Some selectedFile => setFile (Some selectedFile) st
  | None => st
  end.

(** The "remove" button: [setFile(null)]. *)
Definition handleRemove (st : state) : state := setFile None st.

End FileUploader.

(** ** Settings.jsx *)

Module Settings.

Import Js.

(** Settings objects live in a heap: the [settings] prop is a reference, and
    [{ ...settings, [key]: v }] allocates a new object. *)
Abbreviation Obj := (gmap string Value).
Abbreviation Loc := positive.

Record store : Type := mkStore {
  heap : gmap Loc Obj;
  settings : Loc
}.

(** The own properties of the object at [l]. *)
Definition deref (h : gmap Loc Obj) (l : Loc) : Obj := default ∅ (h !! l).

(** [{ ...settings, [key]: v }]: the properties of [settings] copied into a
    fresh object, then [key] written. *)
Definition spreadWith (h : gmap Loc Obj) (l : Loc) (key : string) (v : Value)
  : gmap Loc Obj * Loc :=
  let l' := fresh (dom h) in
  (<[l' := <[key := v]> (deref h l)]> h, l').

Definition setSettings (l : Loc) (st : store) : store :=
  {| heap := heap st; settings := l |}.

(** [handleChange(key, value)]. *)
Definition handleChange (key value : string) (st : store) : store :=
  let (h', l') := spreadWith (heap st) (settings st) key
                    (VNum (parseFloat value)) in
  setSettings l' {| heap := h'; settings := settings st |}.

(** The [onChange] handlers of the eight controls; [value] is
    [e.target.value]. *)
Definition onChange_fontSize (value : string) := handleChange "fontSize" value.
Definition onChange_fontFamily (value : string) :=
  handleChange "fontFamily" value.
Definition onChange_lineSpacing (value : string) :=
  handleChange "lineSpacing" value.
Definition onChange_firstLineIndent (value : string) :=
  handleChange "firstLineIndent" value.
Definition onChange_marginTop (value : string) :=
  handleChange "marginTop" value.
Definition onChange_marginBottom (value : string) :=
  handleChange "marginBottom" value.
Definition onChange_marginLeft (value : string) :=
  handleChange "marginLeft" value.
Definition onChange_marginRight (value : string) :=
  handleChange "marginRight" value.

(** The [value]s of the options of the font family control. *)
Definition fontFamilyOptions : list string :=
  ["Times New Roman"; "Arial"; "Calibri"].

(** The [value]s of the options of the line spacing control. *)
Definition lineSpacingOptions : list string := ["1.0"; "1.5"; "2.0"].

(** The initial settings object of [App]. *)
Definition initialSettings : Obj :=
  list_to_map
    [ ("fontSize", VNum (Decimal false 14 0));
      ("fontFamily", VStr "Times New Roman");
      ("lineSpacing", VNum (Decimal false 15 (-1)));
      ("firstLineIndent", VNum (Decimal false 127 (-2)));
      ("marginTop", VNum (Decimal false 2 0));
      ("marginBottom", VNum (Decimal false 2 0));
      ("marginLeft", VNum (Decimal false 3 0));
      ("marginRight", VNum (Decimal false 15 (-1))) ].

Definition initialStore : store :=
  {| heap := {[ 1%positive := initialSettings ]}; settings := 1%positive |}.

End Settings.

(** ** Converter.jsx *)

Module Converter.

(** A request to the host through [window.electronAPI]. *)
Inductive HostCall : Type :=
| OpenFile (filePath : string)
| OpenFolder (filePath : string).

(** The component's [copied] slot and what its handlers act on: the
    clipboard, the timers set, the requests sent to the host. *)
Record world : Type := mkWorld {
  copied : bool;
  clipboard : option string;
  timers : list (nat * bool);
  hostCalls : list HostCall
}.

Definition initial : world :=
  {| copied := false; clipboard := None; timers := []; hostCalls := [] |}.

(** [handleCopyPath]; [outputFile] is the prop of the component.  The write
    to the clipboard is taken to succeed.  [setTimeout(() =>
    setCopied(false), 2000)] is kept as the pending timer [(2000, false)]. *)
Definition handleCopyPath (outputFile : option string) (w : world) : world :=
  match outputFile with
  | Some p =>
      if Js.truthy p then
        {| copied := true; clipboard := Some p;
           timers := timers w ++ [(2000%nat, false)];
           hostCalls := hostCalls w |}
      else w
  | None => w
  end.

(** A pending timer fires: [setCopied(b)]. *)
Definition fireTimer (w : world) : world :=
  match timers w with
  | (_, b) :: rest =>
      {| copied := b; clipboard := clipboard w; timers := rest;
         hostCalls := hostCalls w |}
  | [] => w
  end.

Definition callHost (c : HostCall) (w : world) : world :=
  {| copied := copied w; clipboard := clipboard w; timers := timers w;
     hostCalls := hostCalls w ++ [c] |}.

(** [handleOpenFile] and [handleOpenFolder]; [electronAPI] tells whether
    [window.electronAPI] is there. *)
Definition handleOpenFile (outputFile : option string) (electronAPI : bool)
  (w : world) : world :=
  match outputFile with
  | Some p => if Js.truthy p && electronAPI then callHost (OpenFile p) w else w
  | None => w
  end.

Definition handleOpenFolder (outputFile : option string) (electronAPI : bool)
  (w : world) : world :=
  match outputFile with
  | Some p =>
      if Js.truthy p && electronAPI then callHost (OpenFolder p) w else w
  | None => w
  end.

End Converter.

(** ** Asynchronous handlers

    An [async] handler is a tree: state updates in sequence, and at an
    [await] a request with the continuation that receives its outcome. *)

Module Async.

Section Prog.

Variables Act Req Resp : Type.

Inductive Prog : Type :=
| Done
| Do (a : Act) (k : Prog)
| Await (q : Req) (k : Resp -> Prog).

(** [p] followed by [q]. *)
Fixpoint seq (p q : Prog) : Prog :=
  match p with
  | Done => q
  | Do a k => Do a (seq k q)
  | Await r k => Await r (fun x => seq (k x) q)
  end.

Variable St : Type.
Variable apply : Act -> St -> St.

(** What an observer sees of a run. *)
Inductive Event : Type :=
| Acted (a : Act)
| Requested (q : Req).

(** The handler runs until its first [await]: the state then, and the
    pending request with its continuation, if it did not finish. *)
Fixpoint suspend (p : Prog) (s : St)
  : St * option (Req * (Resp -> Prog)) :=
  match p with
  | Done => (s, None)
  | Do a k => suspend k (apply a s)
  | Await q k => (s, Some (q, k))
  end.

(** The whole run, when the outside answers the request [q] with
    [answer q]: the final state and the events in order. *)
Fixpoint run (answer : Req -> Resp) (p : Prog) (s : St)
  : St * list Event :=
  match p with
  | Done => (s, [])
  | Do a k =>
      let (s', t) := run answer k (apply a s) in (s', Acted a :: t)
  | Await q k =>
      let (s', t) := run answer (k (answer q)) s in (s', Requested q :: t)
  end.

(** The requests of a trace, in order. *)
Fixpoint requests (t : list Event) : list Req :=
  match t with
  | [] => []
  | Acted _ :: t' => requests t'
  | Requested q :: t' => q :: requests t'
  end.

End Prog.

Arguments Done {Act Req Resp}.
Arguments Do {Act Req Resp} a k.
Arguments Await {Act Req Resp} q k.
Arguments seq {Act Req Resp} p q.
Arguments Acted {Act Req}.
Arguments Requested {Act Req}.
Arguments suspend {Act Req Resp St} apply p s.
Arguments run {Act Req Resp St} apply answer p s.
Arguments requests {Act Req} t.

Definition act {Act Req Resp : Type} (a : Act) : Prog Act Req Resp :=
  Do a Done.

End Async.

(** ** The bridge, as the renderer sees it ([preload.js]) *)

Module Bridge.

(** The value a rejection carries: an object whose [message], if it has
    one, is a string. *)
Record JsError : Type := mkError { message : option string }.

(** The value [convertFile] resolves with. *)
Record ConvertResult : Type := mkResult { outputPath : string }.

Inductive Outcome : Type :=
| Resolve (result : ConvertResult)
| Reject (err : JsError).

(** [convertFile(filePath, settings)]. *)
Definition Request : Type := string * gmap string Js.Value.

End Bridge.

(** The conversion state of the specification. *)
Inductive ConversionState : Type :=
| Idle
| Converting
| Succeeded (outputPath : string)
| Failed (message : string).

(** ** App.jsx, the revision with the error notification *)

Module App.

Import Dom Bridge Async.

Record state : Type := mkState {
  file : option File;
  settings : gmap string Js.Value;
  outputFile : option string;
  isConverting : bool;
  error : option string
}.

Definition initial : state :=
  {| file := None; settings := Settings.initialSettings; outputFile := None;
     isConverting := false; error := None |}.

(** What a handler does to the component, one call at a time: the state
    setters and [console.error]. *)
Inductive Action : Type :=
| SetFile (f : option File)
| SetSettings (s : gmap string Js.Value)
| SetOutputFile (o : option string)
| SetIsConverting (b : bool)
| SetError (e : option string)
| ConsoleError (label : string) (err : JsError).

Definition apply (a : Action) (st : state) : state :=
  match a with
  | SetFile f =>
      {| file := f; settings := settings st; outputFile := outputFile st;
         isConverting := isConverting st; error := error st |}
  | SetSettings s =>
      {| file := file st; settings := s; outputFile := outputFile st;
         isConverting := isConverting st; error := error st |}
  | SetOutputFile o =>
      {| file := file st; settings := settings st; outputFile := o;
         isConverting := isConverting st; error := error st |}
  | SetIsConverting b =>
      {| file := file st; settings := settings st; outputFile := outputFile st;
         isConverting := b; error := error st |}
  | SetError e =>
      {| file := file st; settings := settings st; outputFile := outputFile st;
         isConverting := isConverting st; error := e |}
  | ConsoleError _ _ => st
  end.

Definition fallbackMessage : string := "Произошла ошибка при конвертации".

(** [handleConvert], for the render in which the component's state is
    [st]: [file] and [settings] are the values of that render. *)
Definition handleConvert (st : state) : Prog Action Request Outcome :=
  match file st with
  | None => Done
  | Some f =>
      seq (act (SetIsConverting true))
     (seq (act (SetError None))
     (seq (act (SetOutputFile None))
     (seq (Await (path f, settings st) (fun outcome =>
             match outcome with
             | Resolve result => act (SetOutputFile (Some (outputPath result)))
             | Reject err =>
                 seq (act (ConsoleError "Conversion failed:" err))
                     (act (SetError
                             (Some (Js.or_else (message err) fallbackMessage))))
             end))
          (act (SetIsConverting false)))))
  end.

(** The close button of the notification: [setError(null)]. *)
Definition dismissError (st : state) : state := apply (SetError None) st.

(** The user clicks convert in state [st] and the bridge answers. *)
Definition convert (bridge : Request -> Outcome) (st : state)
  : state * list (Event Action Request) :=
  run apply bridge (handleConvert st) st.

(** The conversion state the component shows: the spinner while
    [isConverting], the notification when [error] is truthy, the result
    when [outputFile] is truthy. *)
Definition conversionState (st : state) : ConversionState :=
  if isConverting st then Converting
  else match Js.shown (error st) with
       | Some m => Failed m
       | None =>
           match Js.shown (outputFile st) with
           | Some p => Succeeded p
           | None => Idle
           end
       end.

End App.

(** ** App.jsx, the revision without the error notification *)

Module AppNoError.

Import Dom Bridge Async.

Record state : Type := mkState {
  file : option File;
  settings : gmap string Js.Value;
  outputFile : option string;
  isConverting : bool
}.

Inductive Action : Type :=
| SetOutputFile (o : option string)
| SetIsConverting (b : bool)
| ConsoleError (label : string) (err : JsError).

Definition apply (a : Action) (st : state) : state :=
  match a with
  | SetOutputFile o =>
      {| file := file st; settings := settings st; outputFile := o;
         isConverting := isConverting st |}
  | SetIsConverting b =>
      {| file := file st; settings := settings st; outputFile := outputFile st;
         isConverting := b |}
  | ConsoleError _ _ => st
  end.

Definition handleConvert (st : state) : Prog Action Request Outcome :=
  match file st with
  | None => Done
  | Some f =>
      seq (act (SetIsConverting true))
     (seq (Await (path f, settings st) (fun outcome =>
             match outcome with
             | Resolve result => act (SetOutputFile (Some (outputPath result)))
             | Reject err => act (ConsoleError "Conversion failed:" err)
             end))
          (act (SetIsConverting false)))
  end.

Definition convert (bridge : Request -> Outcome) (st : state)
  : state * list (Event Action Request) :=
  run apply bridge (handleConvert st) st.

(** This revision has no error slot: its states are the other three. *)
Definition conversionState (st : state) : ConversionState :=
  if isConverting st then Converting
  else match Js.shown (outputFile st) with
       | Some p => Succeeded p
       | None => Idle
       end.

End AppNoError.

(** ** electron/main.js: the [convert-file] handler *)

Module Main.

Import NodePath.

(** How the child process ended: the exit code ([null] when a signal killed
    it) and what it wrote. *)
Record Exit : Type := mkExit {
  exitCode : option Z;
  stdout : string;
  stderr : string
}.

(** What the handler takes from its surroundings: [__dirname],
    [fs.existsSync], [JSON.stringify] on the settings, and the process that
    [spawn(cmd, args, { cwd })] starts, run to its [close] event. *)
Record Env : Type := mkEnv {
  __dirname : string;
  existsSync : string -> bool;
  stringify : gmap string Js.Value -> string;
  spawn : string -> list string -> string -> Exit
}.

Inductive Settled : Type :=
| Resolved (outputPath : string)
| Rejected (message : string).

(** [path.join(outputDir, path.basename(filePath, '.md') + '.docx')]. *)
Definition outputFile (filePath : string) : string :=
  let outputDir := dirname filePath in
  join [outputDir; basename filePath (Some ".md") +:+ ".docx"].

Definition convertFile (env : Env) (filePath : string)
  (settings : gmap string Js.Value) : Settled :=
  let pythonDir := join [__dirname env; "../python"] in
  let venvPython := join [__dirname env; "../venv/bin/python"] in
  let out := outputFile filePath in
  let args :=
    ["-m"; "md2docx"; filePath; out; "--settings"; stringify env settings] in
  let pythonCmd :=
    if existsSync env venvPython then venvPython else "python3.14" in
  let exit := spawn env pythonCmd args pythonDir in
  match exitCode exit with
  | Some 0%Z => Resolved out
  | _ => Rejected ("Conversion failed: " +:+ stderr exit)
  end.

End Main.

(** ** Shapes of paths

    The vocabulary in which the properties of [Main.outputFile] are
    stated: path components, and the absolute paths built from them. *)

Module PathShape.

(** No character of [s] is the separator. *)
Fixpoint noSlash (s : string) : bool :=
  match s with
  | EmptyString => true
  | String c s' => negb (Ascii.eqb c "/") && noSlash s'
  end.

Fixpoint allDots (s : string) : bool :=
  match s with
  | EmptyString => true
  | String c s' => Ascii.eqb c "." && allDots s'
  end.

(** A component of a normalized path: not empty, without a separator, and
    neither ["."] nor [".."]. *)
Definition isSegment (s : string) : bool :=
  negb (String.eqb s "") && noSlash s
  && negb (String.eqb s ".") && negb (String.eqb s "..").

(** The absolute path with the components [segs]; the empty string for no
    component, so that [absPath dirs +:+ "/" +:+ name] is a file in the
    directory [dirs], the root directory included. *)
Fixpoint absPath (segs : list string) : string :=
  match segs with
  | [] => ""
  | s :: rest => "/" +:+ s +:+ absPath rest
  end.

(** The counter [dots] of [normalizeString] after the characters of [s],
    none of them a separator, when it was [d] before. *)
Fixpoint dotsAfter (d : Z) (s : string) : Z :=
  match s with
  | EmptyString => d
  | String c s' =>
      dotsAfter (if Ascii.eqb c "." && negb (d =? -1)%Z then d + 1 else -1)%Z
        s'
  end.

(** The last character of [s], or [c] when [s] is empty. *)
Fixpoint lastCode (c : ascii) (s : string) : ascii :=
  match s with
  | EmptyString => c
  | String x s' => lastCode x s'
  end.

(** A state of the loop of [basename] in which the suffix is decided and
    the end of the component is known: the remaining characters of the
    component change nothing. *)
Definition settled (st : NodePath.bstate) : Prop :=
  NodePath.matchedSlash st = false /\
  NodePath.firstNonSlashEnd st <> (-1)%Z /\
  (NodePath.extIdx st < 0)%Z.

(** [out] is [filePath] with the [.md] at the end of its base name replaced
    by [.docx]: same directory, same stem. *)
Definition mdReplaced (filePath out : string) : Prop :=
  exists dir stem,
    filePath = dir +:+ "/" +:+ stem +:+ ".md" /\
    noSlash stem = true /\
    out = dir +:+ "/" +:+ stem +:+ ".docx".

End PathShape.

(** ** Paths without the separator at their head *)

Module PathParts.

Import PathShape.

(** The components [segs] joined by separators, without one at the head:
    what [normalizeString] collects in [res]. *)
Definition relPath (segs : list string) : string :=
  match segs with
  | [] => ""
  | s :: rest => s +:+ absPath rest
  end.

End PathParts.

(** ** Settings.jsx: a session of edits *)

Module Controls.

Import Js Settings.

(** The keys the eight controls pass to [handleChange]. *)
Definition keys : list string :=
  ["fontSize"; "fontFamily"; "lineSpacing"; "firstLineIndent";
   "marginTop"; "marginBottom"; "marginLeft"; "marginRight"].

(** The keys of the controls that hold a number; [fontFamily] is the one
    that does not. *)
Definition numericKeys : list string :=
  ["fontSize"; "lineSpacing"; "firstLineIndent";
   "marginTop"; "marginBottom"; "marginLeft"; "marginRight"].

(** The settings object the component is rendered with. *)
Definition current (st : store) : Obj := deref (heap st) (settings st).



(** The value of the last edit of the control [key] in a session, if it
    was edited at all. *)
Fixpoint lastEdit (key : string) (edits : list (string * string))
  : option string :=
  match edits with
  | [] => None
  | (k, v) :: rest =>
      match lastEdit key rest with
      | Some v' => Some v'
      | None => if String.eqb k key then Some v else None
      end
  end.

(** The [onChange] events of a session, in order: the key of the control
    and [e.target.value]. *)
Fixpoint changes (edits : list (string * string)) (st : store) : store :=
  match edits with
  | [] => st
  | (key, value) :: rest => changes rest (handleChange key value st)
  end.

End Controls.

(** ** preload.js *)

Module Preload.

(** [ipcRenderer.invoke(channel, ...args)], as it leaves the renderer. *)
Inductive Invoke : Type :=
| InvokeConvert (channel filePath : string) (settings : gmap string Js.Value)
| InvokePath (channel filePath : string).

(** The three functions of [window.electronAPI]. *)
Definition convertFile (filePath : string) (settings : gmap string Js.Value)
  : Invoke := InvokeConvert "convert-file" filePath settings.
Definition openFile (filePath : string) : Invoke :=
  InvokePath "open-file" filePath.
Definition openFolder (filePath : string) : Invoke :=
  InvokePath "open-folder" filePath.

(** A request of [Converter] on its way out. *)
Definition deliver (c : Converter.HostCall) : Invoke :=
  match c with
  | Converter.OpenFile p => openFile p
  | Converter.OpenFolder p => openFolder p
  end.

End Preload.

(** ** electron/main.js: the rest of the main process *)

Module MainProcess.

Import NodePath Main.

(** The names the [convert-file] handler binds before it spawns the
    converter. *)
Definition pythonDir (env : Env) : string :=
  join [__dirname env; "../python"].

Definition venvPython (env : Env) : string :=
  join [__dirname env; "../venv/bin/python"].

Definition pythonCmd (env : Env) : string :=
  if existsSync env (venvPython env) then venvPython env else "python3.14".

Definition args (env : Env) (filePath : string)
  (settings : gmap string Js.Value) : list string :=
  ["-m"; "md2docx"; filePath; outputFile filePath; "--settings";
   stringify env settings].

(** The converter process of a request, run to its [close] event. *)
Definition pythonProcess (env : Env) (filePath : string)
  (settings : gmap string Js.Value) : Exit :=
  spawn env (pythonCmd env) (args env filePath settings) (pythonDir env).

(** [createWindow]: the preload script and the page the window loads;
    [isDev] is [electron-is-dev]. *)
Definition preload (env : Env) : string := join [__dirname env; "preload.js"].

Definition startUrl (env : Env) (isDev : bool) : string :=
  if isDev then "http://localhost:5173"
  else "file://" +:+ join [__dirname env; "../dist/index.html"].

(** What the [open-file] and [open-folder] handlers ask of [shell]. *)
Inductive ShellCall : Type :=
| OpenPath (filePath : string)
| ShowItemInFolder (filePath : string).

Definition openFile (filePath : string) : ShellCall := OpenPath filePath.

Definition openFolder (filePath : string) : ShellCall :=
  ShowItemInFolder filePath.

(** [ipcMain.handle]: the handler registered for the channel of an
    invocation runs, and reads the arguments it names; [None] when the
    channel has no handler.  An invocation of [convert-file] without
    settings, which [preload.js] never makes, is left out as [None] too:
    the handler would stringify [undefined]. *)
Inductive Reply : Type :=
| Settles (s : Settled)
| Shell (c : ShellCall).

Definition handle (env : Env) (i : Preload.Invoke) : option Reply :=
  match i with
  | Preload.InvokeConvert channel filePath settings =>
      if String.eqb channel "convert-file" then
        Some (Settles (convertFile env filePath settings))
      else if String.eqb channel "open-file" then
        Some (Shell (openFile filePath))
      else if String.eqb channel "open-folder" then
        Some (Shell (openFolder filePath))
      else None
  | Preload.InvokePath channel filePath =>
      if String.eqb channel "open-file" then
        Some (Shell (openFile filePath))
      else if String.eqb channel "open-folder" then
        Some (Shell (openFolder filePath))
      else None
  end.

End MainProcess.

(** ** The window as a whole

    The components of [App] and the events that reach them.  A click on
    convert runs [handleConvert] up to its [await]; the continuation waits
    in [pending] until the request settles, and other events may come in
    between. *)

Module Ui.

Import Dom Bridge Async.

(** What [handleConvert] does when the request settles: the rest of the
    [try] block or the [catch] block, then [setIsConverting(false)]. *)
Definition afterAwait (outcome : Outcome) : Prog App.Action Request Outcome :=
  seq match outcome with
      | Resolve result =>
          act (App.SetOutputFile (Some (outputPath result)))
      | Reject err =>
          seq (act (App.ConsoleError "Conversion failed:" err))
              (act (App.SetError
                      (Some (Js.or_else (message err) App.fallbackMessage))))
      end
      (act (App.SetIsConverting false)).

Record state : Type := mkState {
  app : App.state;
  isDragging : bool;
  pending : list (Request * (Outcome -> Prog App.Action Request Outcome))
}.

Definition initial : state :=
  {| app := App.initial; isDragging := false; pending := [] |}.

(** [disabled={!file || isConverting}] of the convert button. *)
Definition convertDisabled (a : App.state) : bool :=
  match App.file a with
  | Some _ => App.isConverting a
  | None => true
  end.

(** [{outputFile && !isConverting && (...)}]: the result box with its
    three actions is rendered. *)
Definition resultShown (a : App.state) : bool :=
  Js.truthy_opt (App.outputFile a) && negb (App.isConverting a).

Inductive event : Type :=
| DragOver
| DragLeave
| Drop (files : list File)
| Browse (files : list File)
| Remove
| Change (key value : string)
| ClickConvert
| Settle (n : nat) (outcome : Outcome)
| Dismiss.

(** A handler of [FileUploader] on the [file] slot of [App] and the
    component's own slot. *)
Definition uploader (h : FileUploader.state -> FileUploader.state)
  (st : state) : state :=
  let u := h {| FileUploader.file := App.file (app st);
                FileUploader.isDragging := isDragging st |} in
  {| app := App.apply (App.SetFile (FileUploader.file u)) (app st);
     isDragging := FileUploader.isDragging u;
     pending := pending st |}.

(** [handleChange] of [Settings] on the [settings] slot of [App]. *)
Definition changed (key value : string) (settings : gmap string Js.Value)
  : gmap string Js.Value :=
  Controls.current
    (Settings.handleChange key value
       {| Settings.heap := {[ 1%positive := settings ]};
          Settings.settings := 1%positive |}).

(** [onConvert]: the handler runs to its [await], if it has one. *)
Definition onConvert (st : state) : state :=
  match suspend App.apply (App.handleConvert (app st)) (app st) with
  | (a, Some waiting) =>
      {| app := a; isDragging := isDragging st;
         pending := pending st ++ [waiting] |}
  | (a, None) =>
      {| app := a; isDragging := isDragging st; pending := pending st |}
  end.

(** The [n]th pending request settles and its continuation runs. *)
Definition settle (n : nat) (outcome : Outcome) (st : state) : state :=
  match pending st !! n with
  | Some (_, k) =>
      match suspend App.apply (k outcome) (app st) with
      | (a, Some waiting) =>
          {| app := a; isDragging := isDragging st;
             pending := delete n (pending st) ++ [waiting] |}
      | (a, None) =>
          {| app := a; isDragging := isDragging st;
             pending := delete n (pending st) |}
      end
  | None => st
  end.

(** One event.  A disabled button gives no click. *)
Definition step (e : event) (st : state) : state :=
  match e with
  | DragOver => uploader FileUploader.handleDragOver st
  | DragLeave => uploader FileUploader.handleDragLeave st
  | Drop files => uploader (FileUploader.handleDrop files) st
  | Browse files => uploader (FileUploader.handleFileSelect files) st
  | Remove => uploader FileUploader.handleRemove st
  | Change key value =>
      {| app := App.apply
                  (App.SetSettings (changed key value (App.settings (app st))))
                  (app st);
         isDragging := isDragging st; pending := pending st |}
  | ClickConvert => if convertDisabled (app st) then st else onConvert st
  | Settle n outcome => settle n outcome st
  | Dismiss =>
      {| app := App.dismissError (app st); isDragging := isDragging st;
         pending := pending st |}
  end.

Fixpoint run (events : list event) (st : state) : state :=
  match events with
  | [] => st
  | e :: rest => run rest (step e st)
  end.

(** The events of the file selector and of the settings. *)
Definition isInput (e : event) : bool :=
  match e with
  | DragOver | DragLeave | Drop _ | Browse _ | Remove | Change _ _ => true
  | ClickConvert | Settle _ _ | Dismiss => false
  end.

Definition isBrowse (e : event) : bool :=
  match e with
  | Browse _ => true
  | _ => false
  end.

(** No request is pending: the spinner is off, and the notification and
    the result are not both there. *)
Definition idle (st : state) : Prop :=
  pending st = [] /\ App.isConverting (app st) = false /\
  (App.error (app st) = None \/ App.outputFile (app st) = None).

(** One request is pending, that of [handleConvert]: the spinner is on and
    both the error and the output path are cleared. *)
Definition waiting (st : state) : Prop :=
  (exists q, pending st = [(q, afterAwait)]) /\
  App.isConverting (app st) = true /\
  App.error (app st) = None /\ App.outputFile (app st) = None.

End Ui.

(** * Properties *)

#[local] Arguments String.append !_ _ / : simpl nomatch.

(** ** Strings *)

Module StringFacts.

Lemma length_append (a b : string) :
  String.length (a +:+ b) = String.length a + String.length b.
Proof. induction a as [|c a IH]; simpl; [reflexivity | now rewrite IH]. Qed.

Lemma append_assoc (a b c : string) : (a +:+ b) +:+ c = a +:+ (b +:+ c).
Proof. induction a as [|x a IH]; simpl; [reflexivity | now rewrite IH]. Qed.

Lemma append_nil_r (a : string) : a +:+ "" = a.
Proof. induction a as [|x a IH]; simpl; [reflexivity | now rewrite IH]. Qed.

Lemma substring_all (s : string) : substring 0 (String.length s) s = s.
Proof. induction s as [|c s IH]; simpl; [reflexivity | now rewrite IH]. Qed.

Lemma substring_zero (s : string) (n : nat) : substring n 0 s = "".
Proof.
  revert n; induction s as [|c s IH]; intros [|n]; simpl; auto.
Qed.

Lemma substring_app_l (p t : string) :
  substring 0 (String.length p) (p +:+ t) = p.
Proof.
  induction p as [|c p IH]; simpl.
  - now destruct t.
  - now rewrite IH.
Qed.

Lemma substring_app_r (p t : string) (n : nat) :
  substring (String.length p) n (p +:+ t) = substring 0 n t.
Proof. induction p as [|c p IH]; simpl; auto. Qed.

Lemma substring_app_prefix (p t : string) (n : nat) :
  n <= String.length p -> substring 0 n (p +:+ t) = substring 0 n p.
Proof.
  revert n; induction p as [|c p IH]; intros n Hn; simpl in *.
  - assert (n = 0) as -> by lia. now destruct t.
  - destruct n as [|n]; [reflexivity|]. rewrite IH by lia. reflexivity.
Qed.

Lemma substring_split (s : string) (n : nat) :
  n <= String.length s ->
  s = substring 0 n s +:+ substring n (String.length s - n) s.
Proof.
  revert n; induction s as [|c s IH]; intros n Hn; simpl in *.
  - now assert (n = 0) as -> by lia.
  - destruct n as [|n]; simpl.
    + now rewrite substring_all.
    + rewrite <- IH by lia. reflexivity.
Qed.

Lemma get_app_l (p t : string) (i : nat) :
  i < String.length p -> String.get i (p +:+ t) = String.get i p.
Proof. intros H. symmetry. now apply append_correct1. Qed.

Lemma get_app_r (p t : string) (i : nat) :
  String.get (String.length p + i) (p +:+ t) = String.get i t.
Proof. rewrite Nat.add_comm. symmetry. apply append_correct2. Qed.

Lemma get_ge (s : string) (i : nat) :
  String.length s <= i -> String.get i s = None.
Proof.
  revert i; induction s as [|c s IH]; intros i H; simpl in *.
  - reflexivity.
  - destruct i as [|i]; [lia|]. apply IH. lia.
Qed.

Lemma append_inv_tail (a b t : string) : a +:+ t = b +:+ t -> a = b.
Proof.
  intros H.
  assert (String.length a = String.length b) as Hl.
  { apply (f_equal String.length) in H. rewrite !length_append in H. lia. }
  rewrite <- (substring_app_l a t), <- (substring_app_l b t).
  rewrite H, Hl. reflexivity.
Qed.

Lemma append_inv_head_length (a b c d : string) :
  String.length a = String.length b -> a +:+ c = b +:+ d -> a = b /\ c = d.
Proof.
  revert b; induction a as [|x a IH]; intros [|y b] Hl H; simpl in *;
    try discriminate.
  - auto.
  - injection H as -> H. destruct (IH b) as [-> ->]; auto.
Qed.

(** Two ways to split a string at the same distance from its end agree. *)
Lemma append_inv_tail_length (a b c d : string) :
  String.length c = String.length d -> a +:+ c = b +:+ d -> a = b /\ c = d.
Proof.
  intros Hl H. apply append_inv_head_length; [|assumption].
  apply (f_equal String.length) in H. rewrite !length_append in H. lia.
Qed.

(** [endsWith] finds exactly the strings that have the search string at
    their end. *)
Lemma endsWith_true (s t : string) :
  Js.endsWith s t = true <-> exists p, s = p +:+ t.
Proof.
  unfold Js.endsWith. split.
  - destruct (Nat.ltb_spec (String.length s) (String.length t)) as [|Hle];
      [discriminate|].
    intros H%String.eqb_eq.
    exists (substring 0 (String.length s - String.length t) s).
    pose proof (substring_split s (String.length s - String.length t)) as Hs.
    replace (String.length s - (String.length s - String.length t))
      with (String.length t) in Hs by lia.
    rewrite H in Hs. apply Hs. lia.
  - intros [p ->]. rewrite length_append.
    destruct (Nat.ltb_spec (String.length p + String.length t)
                (String.length t)) as [|_]; [lia|].
    replace (String.length p + String.length t - String.length t)
      with (String.length p) by lia.
    rewrite substring_app_r, substring_all. apply String.eqb_refl.
Qed.

Lemma endsWith_false (s t : string) :
  Js.endsWith s t = false <-> ~ exists p, s = p +:+ t.
Proof.
  rewrite <- endsWith_true. destruct (Js.endsWith s t); split; congruence.
Qed.

End StringFacts.

(** ** The file selector *)

Module FileUploaderFacts.

Import Dom FileUploader StringFacts.

(** An empty drop (no file among the dragged items) changes no selection. *)
Lemma handleDrop_no_file (st : state) : file (handleDrop [] st) = file st.
Proof. reflexivity. Qed.

(** A drop always ends the drag-hover state. *)
Lemma handleDrop_isDragging (files : list File) (st : state) :
  isDragging (handleDrop files st) = false.
Proof.
  unfold handleDrop. destruct (accepts (head files)); reflexivity.
Qed.

(** The drop looks at the first file only, and at its name only through
    [endsWith]. *)
Lemma handleDrop_first (f : File) (rest : list File) (st : state) :
  file (handleDrop (f :: rest) st)
    = if Js.endsWith (name f) ".md" then Some f else file st.
Proof.
  unfold handleDrop; simpl. now destruct (Js.endsWith (name f) ".md").
Qed.

(** C7. Dropping a file whose name ends in [.md] makes it the selection;
    dropping a file whose name does not end in [.md] leaves the selection
    as it was (and nothing else is reported: the handler only returns the
    state). *)
Theorem handleDrop_md (f : File) (rest : list File) (st : state) :
  ((exists stem, name f = stem +:+ ".md") ->
     file (handleDrop (f :: rest) st) = Some f) /\
  ((~ exists stem, name f = stem +:+ ".md") ->
     file (handleDrop (f :: rest) st) = file st).
Proof.
  rewrite handleDrop_first. split.
  - intros H%endsWith_true. now rewrite H.
  - intros H%endsWith_false. now rewrite H.
Qed.

Lemma handleDrop_md_witness :
  file (handleDrop [mkFile "x.md" 10 "/docs/x.md"] (mkState None true))
    = Some (mkFile "x.md" 10 "/docs/x.md") /\
  file (handleDrop [mkFile "x.txt" 10 "/docs/x.txt"]
          (mkState (Some (mkFile "a.md" 3 "/a.md")) true))
    = Some (mkFile "a.md" 3 "/a.md").
Proof.
  split.
  - apply (proj1 (handleDrop_md (mkFile "x.md" 10 "/docs/x.md") []
                    (mkState None true))).
    exists "x". reflexivity.
  - apply (proj2 (handleDrop_md (mkFile "x.txt" 10 "/docs/x.txt") []
                    (mkState (Some (mkFile "a.md" 3 "/a.md")) true))).
    apply endsWith_false. reflexivity.
Defined.

(** The picker was closed without a file: the selection stays. *)
Lemma handleFileSelect_cancel (st : state) :
  file (handleFileSelect [] st) = file st.
Proof. reflexivity. Qed.

(** C8. Whatever file the browse dialog returns becomes the selection; its
    name is not looked at. *)
Theorem handleFileSelect_any (f : File) (rest : list File) (st : state) :
  file (handleFileSelect (f :: rest) st) = Some f.
Proof. reflexivity. Qed.

(** The two input paths differ: a file that a drop ignores is selected when
    it comes from the dialog. *)
Example browse_accepts_what_drop_ignores :
  let f := mkFile "notes.txt" 10 "/docs/notes.txt" in
  file (handleDrop [f] (mkState None false)) = None /\
  file (handleFileSelect [f] (mkState None false)) = Some f.
Proof. split; reflexivity. Qed.

(** C10. The check of the extension is case-sensitive: a dropped file whose
    name ends in [.MD], [.Md] or [.mD] is ignored and the selection is
    unchanged. *)
Theorem handleDrop_case_sensitive (f : File) (rest : list File) (st : state)
  (stem ext : string) :
  ext ∈ [".MD"; ".Md"; ".mD"] ->
  name f = stem +:+ ext ->
  file (handleDrop (f :: rest) st) = file st.
Proof.
  intros Hext Hname. rewrite handleDrop_first.
  enough (Js.endsWith (name f) ".md" = false) as -> by reflexivity.
  apply endsWith_false.
  intros [stem' H]. rewrite Hname in H.
  assert (String.length ext = String.length ".md") as Hl.
  { repeat (apply elem_of_cons in Hext as [->|Hext]; [reflexivity|]).
    now apply elem_of_nil in Hext. }
  destruct (append_inv_tail_length _ _ _ _ Hl H) as [_ ->].
  repeat (apply elem_of_cons in Hext as [Hext|Hext]; [discriminate|]).
  now apply elem_of_nil in Hext.
Qed.

Lemma handleDrop_case_sensitive_witness :
  file (handleDrop [mkFile "README.MD" 10 "/docs/README.MD"]
          (mkState (Some (mkFile "a.md" 3 "/a.md")) true))
    = Some (mkFile "a.md" 3 "/a.md").
Proof.
  apply (handleDrop_case_sensitive (mkFile "README.MD" 10 "/docs/README.MD")
           [] (mkState (Some (mkFile "a.md" 3 "/a.md")) true) "README" ".MD").
  - constructor.
  - reflexivity.
Defined.

End FileUploaderFacts.

(** ** The conversion orchestrator *)

Module AppFacts.

Import Dom Bridge Async App.

(** The fallback message is not the empty string, so it is shown. *)
Lemma fallbackMessage_truthy : Js.truthy fallbackMessage = true.
Proof. reflexivity. Qed.

Lemma truthy_true (s : string) : s <> "" -> Js.truthy s = true.
Proof.
  intros H. unfold Js.truthy.
  destruct (String.eqb_spec s ""); [contradiction | reflexivity].
Qed.

(** With a file selected the handler runs to its one [await]. *)
Lemma handleConvert_selected (st : state) (f : File) :
  file st = Some f ->
  handleConvert st =
    Do (SetIsConverting true) (Do (SetError None) (Do (SetOutputFile None)
      (Await (path f, settings st) (fun outcome =>
         seq match outcome with
             | Resolve result => act (SetOutputFile (Some (outputPath result)))
             | Reject err =>
                 seq (act (ConsoleError "Conversion failed:" err))
                     (act (SetError
                             (Some (Js.or_else (message err) fallbackMessage))))
             end
             (act (SetIsConverting false)))))).
Proof. intros H. unfold handleConvert. rewrite H. reflexivity. Qed.

(** The run when the bridge rejects. *)
Lemma convert_reject (bridge : Request -> Outcome) (st : state) (f : File)
  (err : JsError) :
  file st = Some f ->
  bridge (path f, settings st) = Reject err ->
  convert bridge st =
    ({| file := file st; settings := settings st; outputFile := None;
        isConverting := false;
        error := Some (Js.or_else (message err) fallbackMessage) |},
     [ Acted (SetIsConverting true); Acted (SetError None);
       Acted (SetOutputFile None); Requested (path f, settings st);
       Acted (ConsoleError "Conversion failed:" err);
       Acted (SetError (Some (Js.or_else (message err) fallbackMessage)));
       Acted (SetIsConverting false) ]).
Proof.
  intros Hf Hb. unfold convert. rewrite (handleConvert_selected st f Hf).
  simpl. rewrite Hb. reflexivity.
Qed.

(** The run when the bridge resolves. *)
Lemma convert_resolve (bridge : Request -> Outcome) (st : state) (f : File)
  (result : ConvertResult) :
  file st = Some f ->
  bridge (path f, settings st) = Resolve result ->
  convert bridge st =
    ({| file := file st; settings := settings st;
        outputFile := Some (outputPath result);
        isConverting := false; error := None |},
     [ Acted (SetIsConverting true); Acted (SetError None);
       Acted (SetOutputFile None); Requested (path f, settings st);
       Acted (SetOutputFile (Some (outputPath result)));
       Acted (SetIsConverting false) ]).
Proof.
  intros Hf Hb. unfold convert. rewrite (handleConvert_selected st f Hf).
  simpl. rewrite Hb. reflexivity.
Qed.

(** C1. When the bridge rejects, the conversion ends in the Failed state
    with the message of the rejection; when the rejection has no message
    (none at all, or the empty string) the fallback message is stored
    instead. *)
Theorem handleConvert_reject_failed (bridge : Request -> Outcome)
  (st : state) (f : File) (err : JsError) :
  file st = Some f ->
  bridge (path f, settings st) = Reject err ->
  let st' := fst (convert bridge st) in
  (forall m, message err = Some m -> m <> "" ->
     error st' = Some m /\ conversionState st' = Failed m) /\
  (message err = None \/ message err = Some "" ->
     error st' = Some fallbackMessage /\
     conversionState st' = Failed fallbackMessage).
Proof.
  intros Hf Hb. rewrite (convert_reject bridge st f err Hf Hb). simpl. split.
  - intros m Hm Hne. rewrite Hm. unfold conversionState; simpl.
    rewrite (truthy_true m Hne). simpl. rewrite (truthy_true m Hne). auto.
  - intros [Hm|Hm]; rewrite Hm; auto.
Qed.

Lemma handleConvert_reject_failed_witness :
  let st := {| file := Some (mkFile "x.md" 10 "/docs/x.md");
               settings := Settings.initialSettings;
               outputFile := Some "/docs/old.docx";
               isConverting := false; error := None |} in
  conversionState
    (fst (convert (fun _ => Reject (mkError (Some "disk full"))) st))
    = Failed "disk full" /\
  conversionState (fst (convert (fun _ => Reject (mkError None)) st))
    = Failed fallbackMessage.
Proof.
  intros st. split.
  - apply (proj1 (handleConvert_reject_failed
                    (fun _ => Reject (mkError (Some "disk full"))) st
                    (mkFile "x.md" 10 "/docs/x.md")
                    (mkError (Some "disk full")) eq_refl eq_refl)
             "disk full" eq_refl).
    discriminate.
  - apply (proj2 (handleConvert_reject_failed
                    (fun _ => Reject (mkError None)) st
                    (mkFile "x.md" 10 "/docs/x.md")
                    (mkError None) eq_refl eq_refl)).
    left. reflexivity.
Defined.

(** C2. With a file selected, convert first clears the error and the output
    path, and only then calls the bridge: the handler is suspended in a
    state where both are cleared, waiting for the one request it makes, for
    the path of the selected file and the settings of this render; whatever
    the bridge answers, that request is the only one of the run and comes
    after the two clearing updates. *)
Theorem handleConvert_clears_then_calls_once (st : state) (f : File) :
  file st = Some f ->
  (exists st1 k,
     suspend apply (handleConvert st) st
       = (st1, Some ((path f, settings st), k)) /\
     error st1 = None /\ outputFile st1 = None /\ isConverting st1 = true /\
     file st1 = file st /\ settings st1 = settings st) /\
  forall bridge : Request -> Outcome,
    requests (snd (convert bridge st)) = [(path f, settings st)] /\
    exists rest,
      snd (convert bridge st) =
        ([ Acted (SetIsConverting true); Acted (SetError None);
           Acted (SetOutputFile None); Requested (path f, settings st) ]
         ++ rest)%list /\
      requests rest = [].
Proof.
  intros Hf. split.
  - rewrite (handleConvert_selected st f Hf). simpl.
    eexists. eexists. split; [reflexivity|]. simpl. auto.
  - intros bridge.
    destruct (bridge (path f, settings st)) as [result|err] eqn:Hb.
    + rewrite (convert_resolve bridge st f result Hf Hb). simpl.
      split; [reflexivity|]. eexists. split; reflexivity.
    + rewrite (convert_reject bridge st f err Hf Hb). simpl.
      split; [reflexivity|]. eexists. split; reflexivity.
Qed.

Lemma handleConvert_clears_then_calls_once_witness :
  let f := mkFile "x.md" 10 "/docs/x.md" in
  let st := {| file := Some f; settings := Settings.initialSettings;
               outputFile := Some "/docs/old.docx";
               isConverting := false; error := Some "disk full" |} in
  requests (snd (convert (fun _ => Reject (mkError None)) st))
    = [("/docs/x.md", Settings.initialSettings)].
Proof.
  intros f st.
  apply (proj2 (handleConvert_clears_then_calls_once st f eq_refl)).
Defined.

(** A second attempt after a failure: the old message is gone while the
    new request is pending. *)
Lemma retry_clears_error (st : state) (f : File) (m : string) :
  file st = Some f -> error st = Some m ->
  error (fst (suspend apply (handleConvert st) st)) = None.
Proof.
  intros Hf _. rewrite (handleConvert_selected st f Hf). reflexivity.
Qed.

(** C3. Without a selected file convert does nothing: the state is the
    same, so an Idle state stays Idle, and the run has no event, so the
    bridge is not called; this holds in both revisions of the component. *)
Theorem handleConvert_no_file (bridge : Request -> Outcome) (st : state)
  (st0 : AppNoError.state) :
  file st = None ->
  AppNoError.file st0 = None ->
  (convert bridge st = (st, []) /\
   conversionState (fst (convert bridge st)) = conversionState st /\
   requests (snd (convert bridge st)) = [] /\
   suspend apply (handleConvert st) st = (st, None)) /\
  (AppNoError.convert bridge st0 = (st0, []) /\
   requests (snd (AppNoError.convert bridge st0)) = []).
Proof.
  intros Hf Hf0. unfold convert, AppNoError.convert, handleConvert,
    AppNoError.handleConvert. rewrite Hf, Hf0. simpl. auto.
Qed.

Lemma handleConvert_no_file_witness :
  conversionState
    (fst (convert (fun _ => Resolve (mkResult "/docs/x.docx")) initial))
    = Idle.
Proof.
  pose proof (handleConvert_no_file
                (fun _ => Resolve (mkResult "/docs/x.docx")) initial
                (AppNoError.mkState None Settings.initialSettings None false)
                eq_refl eq_refl) as [[_ [H _]] _].
  rewrite H. reflexivity.
Defined.

(** C4. When the bridge resolves with an output path, the conversion ends
    in the Succeeded state with exactly that path, and copying the path
    then puts exactly that string on the clipboard. *)
Theorem handleConvert_resolve_then_copy (bridge : Request -> Outcome)
  (st : state) (f : File) (result : ConvertResult) (w : Converter.world) :
  file st = Some f ->
  bridge (path f, settings st) = Resolve result ->
  outputPath result <> "" ->
  let st' := fst (convert bridge st) in
  outputFile st' = Some (outputPath result) /\
  conversionState st' = Succeeded (outputPath result) /\
  Converter.clipboard (Converter.handleCopyPath (outputFile st') w)
    = Some (outputPath result).
Proof.
  intros Hf Hb Hne. rewrite (convert_resolve bridge st f result Hf Hb).
  unfold conversionState, Converter.handleCopyPath. simpl.
  rewrite (truthy_true _ Hne). auto.
Qed.

Lemma handleConvert_resolve_then_copy_witness :
  let st := {| file := Some (mkFile "report.md" 10 "/docs/report.md");
               settings := Settings.initialSettings; outputFile := None;
               isConverting := false; error := None |} in
  let st' := fst (convert (fun _ => Resolve (mkResult "/docs/report.docx"))
                    st) in
  outputFile st' = Some "/docs/report.docx" /\
  conversionState st' = Succeeded "/docs/report.docx" /\
  Converter.clipboard (Converter.handleCopyPath (outputFile st')
                         Converter.initial)
    = Some "/docs/report.docx".
Proof.
  intros st.
  apply (handleConvert_resolve_then_copy
           (fun _ => Resolve (mkResult "/docs/report.docx")) st
           (mkFile "report.md" 10 "/docs/report.md")
           (mkResult "/docs/report.docx") Converter.initial eq_refl eq_refl).
  discriminate.
Defined.

(** The revision without the error slot only logs a rejection: a path left
    by an earlier conversion is still there, and shown, after the failure. *)
Lemma noError_reject_only_logs (bridge : Request -> Outcome)
  (st : AppNoError.state) (f : File) (err : JsError) :
  AppNoError.file st = Some f ->
  bridge (path f, AppNoError.settings st) = Reject err ->
  AppNoError.convert bridge st =
    (AppNoError.mkState (AppNoError.file st) (AppNoError.settings st)
       (AppNoError.outputFile st) false,
     [ Acted (AppNoError.SetIsConverting true);
       Requested (path f, AppNoError.settings st);
       Acted (AppNoError.ConsoleError "Conversion failed:" err);
       Acted (AppNoError.SetIsConverting false) ]).
Proof.
  destruct st as [fl se o c]. simpl. intros -> Hb.
  unfold AppNoError.convert, AppNoError.handleConvert. simpl.
  rewrite Hb. reflexivity.
Qed.

(** Nor does it clear the output path before the call: while the request
    is pending the path of an earlier conversion is still in the state. *)
Lemma noError_keeps_output (st : AppNoError.state) (f : File) :
  AppNoError.file st = Some f ->
  AppNoError.outputFile
    (fst (suspend AppNoError.apply (AppNoError.handleConvert st) st))
    = AppNoError.outputFile st.
Proof.
  intros Hf. unfold AppNoError.handleConvert. rewrite Hf. reflexivity.
Qed.

End AppFacts.

(** ** The settings component *)

Module SettingsFacts.

Import Js Settings.

(** The reference [handleChange] hands to [setSettings] is new. *)
Lemma handleChange_fresh (key value : string) (st : store) :
  heap st !! settings (handleChange key value st) = None.
Proof.
  unfold handleChange, spreadWith; simpl.
  apply not_elem_of_dom, is_fresh.
Qed.

(** The object it points to: the old properties with [key] overwritten by
    the parsed value. *)
Lemma handleChange_object (key value : string) (st : store) :
  heap (handleChange key value st) !! settings (handleChange key value st)
    = Some (<[key := VNum (parseFloat value)]>
              (deref (heap st) (settings st))).
Proof. unfold handleChange, spreadWith; simpl. apply lookup_insert_eq. Qed.

(** C6. A change of one field gives a new settings object that agrees with
    the old one on every other field; the old object, and every object of
    the heap, is left as it was, and the new reference is not the old one. *)
Theorem handleChange_frame (key value : string) (st : store) (old : Obj) :
  heap st !! settings st = Some old ->
  let st' := handleChange key value st in
  settings st' <> settings st /\
  (forall l o, heap st !! l = Some o -> heap st' !! l = Some o) /\
  exists new,
    heap st' !! settings st' = Some new /\
    new !! key = Some (VNum (parseFloat value)) /\
    forall k, k <> key -> new !! k = old !! k.
Proof.
  intros Hold st'.
  assert (settings st' <> settings st) as Hne.
  { intros Heq. pose proof (handleChange_fresh key value st) as Hf.
    fold st' in Hf. rewrite Heq in Hf. congruence. }
  split; [exact Hne|]. split.
  - intros l o Hl. unfold st', handleChange, spreadWith; simpl.
    rewrite lookup_insert_ne; [exact Hl|].
    intros <-. pose proof (is_fresh (dom (heap st))) as Hf.
    apply Hf, elem_of_dom. eauto.
  - eexists. split; [apply handleChange_object|].
    unfold deref. rewrite Hold. simpl. split.
    + apply lookup_insert_eq.
    + intros k Hk. now apply lookup_insert_ne.
Qed.

Lemma handleChange_frame_witness :
  let st' := handleChange "marginTop" "2.5" initialStore in
  settings st' <> settings initialStore /\
  (forall l o, heap initialStore !! l = Some o -> heap st' !! l = Some o) /\
  exists new,
    heap st' !! settings st' = Some new /\
    new !! "marginTop" = Some (VNum (parseFloat "2.5")) /\
    forall k, k <> "marginTop" -> new !! k = initialSettings !! k.
Proof.
  apply (handleChange_frame "marginTop" "2.5" initialStore initialSettings).
  reflexivity.
Defined.

(** Every change goes through [parseFloat], whatever the field. *)
Lemma handleChange_parses (key value : string) (st : store) :
  deref (heap (handleChange key value st))
        (settings (handleChange key value st)) !! key
    = Some (VNum (parseFloat value)).
Proof.
  unfold deref at 1. rewrite handleChange_object. simpl.
  apply lookup_insert_eq.
Qed.

(** The numeric controls: the text of the field is read as a decimal. *)
Example lineSpacing_parsed :
  map parseFloat lineSpacingOptions
    = [Decimal false 10 (-1); Decimal false 15 (-1); Decimal false 20 (-1)].
Proof. reflexivity. Qed.

(** No font family name starts with a number. *)
Lemma fontFamily_not_numeric (font : string) :
  font ∈ fontFamilyOptions -> parseFloat font = NaN.
Proof.
  intros H. unfold fontFamilyOptions in H.
  repeat (apply elem_of_cons in H as [->|H]; [reflexivity|]).
  now apply elem_of_nil in H.
Qed.

(** C5 does not hold of the code: choosing a font family stores [NaN] in
    [fontFamily], not the name of the font, because the change of every
    control, this one included, is parsed as a number. *)
Theorem fontFamily_change_stores_NaN (font : string) (st : store) :
  font ∈ fontFamilyOptions ->
  let st' := onChange_fontFamily font st in
  deref (heap st') (settings st') !! "fontFamily" = Some (VNum NaN) /\
  deref (heap st') (settings st') !! "fontFamily" <> Some (VStr font).
Proof.
  intros H st'. unfold st', onChange_fontFamily.
  rewrite handleChange_parses, (fontFamily_not_numeric font H).
  split; [reflexivity | discriminate].
Qed.

Lemma fontFamily_change_stores_NaN_witness :
  let st' := onChange_fontFamily "Arial" initialStore in
  deref (heap st') (settings st') !! "fontFamily" = Some (VNum NaN) /\
  deref (heap st') (settings st') !! "fontFamily" <> Some (VStr "Arial").
Proof.
  apply (fontFamily_change_stores_NaN "Arial" initialStore).
  apply elem_of_cons. right. constructor.
Defined.

End SettingsFacts.

(** ** Node's path functions on well-formed paths *)

Module NodePathFacts.

Import Js NodePath PathShape StringFacts.

(** *** Characters and slices *)

Lemma noSlash_app (a b : string) :
  noSlash (a +:+ b) = noSlash a && noSlash b.
Proof.
  induction a as [|c a IH]; simpl; [reflexivity|].
  rewrite IH. now rewrite andb_assoc.
Qed.

Lemma noSlash_charAt (s : string) (i : nat) :
  noSlash s = true -> isChar "/" (charAt s i) = false.
Proof.
  unfold charAt. revert i; induction s as [|c s IH]; intros i H; simpl in *.
  - reflexivity.
  - apply andb_true_iff in H as [Hc Hs].
    destruct i as [|i]; simpl.
    + now apply negb_true_iff in Hc.
    + now apply IH.
Qed.

Lemma charAt_lt (s : string) (i : nat) :
  i < String.length s -> exists c, charAt s i = Some c.
Proof.
  unfold charAt. revert i; induction s as [|x s IH]; intros i H; simpl in *.
  - lia.
  - destruct i as [|i]; [eauto|]. apply IH. lia.
Qed.

Lemma charAt_app_l (p t : string) (i : nat) :
  i < String.length p -> charAt (p +:+ t) i = charAt p i.
Proof. apply get_app_l. Qed.

Lemma charAt_app_r (p t : string) (i : nat) :
  charAt (p +:+ t) (String.length p + i) = charAt t i.
Proof. apply get_app_r. Qed.

Lemma slice_prefix (a b : string) :
  slice (a +:+ b) 0 (Z.of_nat (String.length a)) = a.
Proof.
  unfold slice, clampIndex. rewrite length_append.
  destruct (Z.ltb_spec 0 0) as [|_]; [lia|].
  destruct (Z.ltb_spec (Z.of_nat (String.length a)) 0) as [|_]; [lia|].
  rewrite Z.min_l by lia.
  rewrite Z.min_l by lia.
  rewrite Z.max_l by lia. rewrite Z.sub_0_r, Nat2Z.id. simpl.
  apply substring_app_l.
Qed.

Lemma slice_middle (a b c : string) :
  slice (a +:+ b +:+ c) (Z.of_nat (String.length a))
    (Z.of_nat (String.length a + String.length b)) = b.
Proof.
  unfold slice, clampIndex. rewrite !length_append.
  destruct (Z.ltb_spec (Z.of_nat (String.length a)) 0) as [|_]; [lia|].
  destruct (Z.ltb_spec
              (Z.of_nat (String.length a + String.length b)) 0) as [|_];
    [lia|].
  rewrite !Z.min_l by lia. rewrite Z.max_l by lia.
  replace (Z.to_nat (Z.of_nat (String.length a + String.length b)
                     - Z.of_nat (String.length a)))
    with (String.length b) by lia.
  rewrite Nat2Z.id, substring_app_r. apply substring_app_l.
Qed.

(** *** [dirname] *)

Lemma dirname_loop_S (path : string) (i : nat) (ms : bool) :
  dirname_loop path (S i) ms =
    if isChar "/" (charAt path (S i)) then
      if negb ms then Z.of_nat (S i) else dirname_loop path i ms
    else dirname_loop path i false.
Proof. reflexivity. Qed.

(** The scan walks over the characters of the base name. *)
Lemma dirname_loop_name (dir name : string) (k : nat) (ms : bool) :
  noSlash name = true ->
  k <= String.length name ->
  (1 <= k \/ ms = false) ->
  dirname_loop (dir +:+ "/" +:+ name) (String.length dir + k) ms
    = dirname_loop (dir +:+ "/" +:+ name) (String.length dir) false.
Proof.
  intros Hname. revert ms. induction k as [|k IH]; intros ms Hk Hms.
  - destruct Hms as [Hms | ->]; [lia|]. now rewrite Nat.add_0_r.
  - rewrite Nat.add_succ_r, dirname_loop_S.
    replace (S (String.length dir + k))
      with (String.length dir + (String.length "/" + k)) by (simpl; lia).
    rewrite charAt_app_r, charAt_app_r, (noSlash_charAt name k Hname).
    apply IH; [lia | now right].
Qed.

Lemma dirname_loop_end (dir name : string) :
  noSlash name = true -> name <> "" ->
  dirname_loop (dir +:+ "/" +:+ name)
    (String.length (dir +:+ "/" +:+ name) - 1) true
  = if (String.length dir =? 0)%nat then (-1)%Z
    else Z.of_nat (String.length dir).
Proof.
  intros Hname Hne.
  assert (1 <= String.length name) by (destruct name; simpl; [congruence|lia]).
  replace (String.length (dir +:+ "/" +:+ name) - 1)
    with (String.length dir + String.length name)
    by (rewrite !length_append; simpl; lia).
  rewrite dirname_loop_name by (auto; lia).
  destruct (String.length dir) as [|n] eqn:Hd; [reflexivity|].
  rewrite dirname_loop_S.
  replace (charAt (dir +:+ "/" +:+ name) (S n)) with (Some "/"%char);
    [reflexivity|].
  rewrite <- Hd, <- (Nat.add_0_r (String.length dir)), charAt_app_r.
  reflexivity.
Qed.

(** The directory of a file in a directory that is not the root. *)
Lemma dirname_file (dir name : string) :
  noSlash name = true -> name <> "" ->
  2 <= String.length dir ->
  dirname (dir +:+ "/" +:+ name) = dir.
Proof.
  intros Hname Hne Hdir. unfold dirname.
  rewrite dirname_loop_end by assumption.
  rewrite length_append at 1.
  destruct (Nat.eqb_spec (String.length dir + String.length ("/" +:+ name)) 0)
    as [E|_]; [lia|].
  destruct (Nat.eqb_spec (String.length dir) 0) as [E|_]; [lia|].
  destruct (Z.eqb_spec (Z.of_nat (String.length dir)) (-1)) as [E|_]; [lia|].
  destruct (Z.eqb_spec (Z.of_nat (String.length dir)) 1) as [E|_]; [lia|].
  rewrite andb_false_r. apply slice_prefix.
Qed.

(** The directory of a file in the root directory. *)
Lemma dirname_root_file (name : string) :
  noSlash name = true -> name <> "" -> dirname ("/" +:+ name) = "/".
Proof.
  intros Hname Hne. unfold dirname.
  pose proof (dirname_loop_end "" name Hname Hne) as H. simpl in H.
  simpl. rewrite H. reflexivity.
Qed.

(** *** [basename] with the suffix [.md] *)

Lemma ext_loop_step (path sfx : string) (i : nat) (st : bstate) (c : ascii) :
  charAt path i = Some c -> Ascii.eqb c "/" = false ->
  basename_ext_loop path sfx (S i) st
    = basename_ext_loop path sfx i (extMatch sfx i (Some c) st).
Proof. intros H Hc. simpl. rewrite H. simpl. rewrite Hc. reflexivity. Qed.

Lemma ext_loop_break (path sfx : string) (i : nat) (st : bstate) :
  charAt path i = Some "/"%char -> matchedSlash st = false ->
  basename_ext_loop path sfx (S i) st = breakAt i st.
Proof. intros H Hm. simpl. rewrite H, Hm. reflexivity. Qed.

Lemma extMatch_settled (sfx : string) (i : nat) (code : option ascii)
  (st : bstate) :
  settled st -> extMatch sfx i code st = st.
Proof.
  intros (Hm & Hf & Hx). unfold extMatch.
  destruct (Z.eqb_spec (firstNonSlashEnd st) (-1)) as [|_]; [contradiction|].
  destruct (Z.leb_spec 0 (extIdx st)) as [|_]; [lia|]. reflexivity.
Qed.

Lemma ext_loop_settled (pre name rest sfx : string) (k : nat) (st : bstate) :
  noSlash name = true -> k <= String.length name -> settled st ->
  basename_ext_loop (pre +:+ name +:+ rest) sfx (String.length pre + k) st
    = basename_ext_loop (pre +:+ name +:+ rest) sfx (String.length pre) st.
Proof.
  intros Hname. induction k as [|k IH]; intros Hk Hst.
  - now rewrite Nat.add_0_r.
  - rewrite Nat.add_succ_r.
    destruct (charAt_lt name k) as [c Hc]; [lia|].
    rewrite (ext_loop_step _ sfx _ st c).
    + rewrite extMatch_settled by assumption. apply IH; [lia|assumption].
    + rewrite charAt_app_r, charAt_app_l by lia. exact Hc.
    + pose proof (noSlash_charAt name k Hname) as H. rewrite Hc in H.
      exact H.
Qed.

(** The first separator met after the component ends the loop. *)
Lemma ext_loop_component (pre name rest sfx : string) (st : bstate) :
  noSlash name = true -> settled st ->
  basename_ext_loop ((pre +:+ "/") +:+ name +:+ rest) sfx
    (String.length (pre +:+ "/") + String.length name) st
  = breakAt (String.length pre) st.
Proof.
  intros Hname Hst. rewrite ext_loop_settled by auto.
  rewrite length_append, Nat.add_1_r. apply ext_loop_break.
  - rewrite !append_assoc, <- (Nat.add_0_r (String.length pre)), charAt_app_r.
    reflexivity.
  - apply Hst.
Qed.

(** A character that continues the match of the suffix: the first
    character of the component, and a later one. *)
Lemma extMatch_hit_first (sfx : string) (i : nat) (c : ascii) (s e x : Z)
  (m : bool) :
  (0 <= x)%Z -> charAt sfx (Z.to_nat x) = Some c ->
  extMatch sfx i (Some c) (mkB s e m x (-1))
  = mkB s (if (x - 1 =? -1)%Z then Z.of_nat i else e) false (x - 1)
      (Z.of_nat i + 1).
Proof.
  intros Hx Hc. unfold extMatch.
  cbn [extIdx start end_ matchedSlash firstNonSlashEnd].
  change (-1 =? -1)%Z with true.
  cbn [extIdx start end_ matchedSlash firstNonSlashEnd].
  destruct (Z.leb_spec 0 x) as [_|]; [|lia].
  rewrite Hc; cbn [sameCode]; rewrite Ascii.eqb_refl; reflexivity.
Qed.

Lemma extMatch_hit_next (sfx : string) (i : nat) (c : ascii) (s e x f : Z)
  (m : bool) :
  f <> (-1)%Z -> (0 <= x)%Z -> charAt sfx (Z.to_nat x) = Some c ->
  extMatch sfx i (Some c) (mkB s e m x f)
  = mkB s (if (x - 1 =? -1)%Z then Z.of_nat i else e) m (x - 1) f.
Proof.
  intros Hf Hx Hc. unfold extMatch.
  cbn [extIdx start end_ matchedSlash firstNonSlashEnd].
  destruct (Z.eqb_spec f (-1)) as [|_]; [contradiction|].
  cbn [extIdx start end_ matchedSlash firstNonSlashEnd].
  destruct (Z.leb_spec 0 x) as [_|]; [|lia].
  rewrite Hc; cbn [sameCode]; rewrite Ascii.eqb_refl; reflexivity.
Qed.

(** The state in which the three characters of [.md] have been matched,
    the last of them at index [m]. *)
Lemma ext_loop_md (p : string) (m : nat) :
  m = String.length p ->
  basename_ext_loop (p +:+ ".md") ".md" (m + 3) (binit ".md")
  = basename_ext_loop (p +:+ ".md") ".md" m
      {| start := 0; end_ := Z.of_nat m; matchedSlash := false;
         extIdx := -1; firstNonSlashEnd := Z.of_nat (m + 3) |}.
Proof.
  intros ->. replace (String.length p + 3) with (S (S (S (String.length p))))
    by lia.
  change (binit ".md") with (mkB 0 (-1) true 2 (-1)).
  rewrite (ext_loop_step _ _ _ _ "d");
    [| replace (S (S (String.length p))) with (String.length p + 2) by lia;
       now rewrite charAt_app_r | reflexivity].
  rewrite extMatch_hit_first by (lia || reflexivity).
  change (2 - 1 =? -1)%Z with false. cbv iota.
  rewrite (ext_loop_step _ _ _ _ "m");
    [| replace (S (String.length p)) with (String.length p + 1) by lia;
       now rewrite charAt_app_r | reflexivity].
  rewrite extMatch_hit_next by (lia || reflexivity).
  change (2 - 1 - 1 =? -1)%Z with false. cbv iota.
  rewrite (ext_loop_step _ _ _ _ ".");
    [| rewrite <- (Nat.add_0_r (String.length p));
       now rewrite charAt_app_r | reflexivity].
  rewrite extMatch_hit_next by (lia || reflexivity).
  change (2 - 1 - 1 - 1 =? -1)%Z with true. cbv iota.
  f_equal. f_equal; lia.
Qed.

(** The loop on a file [stem.md] in a directory. *)
Lemma ext_loop_md_stem (pre stem : string) :
  noSlash stem = true ->
  basename_ext_loop (pre +:+ "/" +:+ stem +:+ ".md") ".md"
    (String.length (pre +:+ "/" +:+ stem +:+ ".md")) (binit ".md")
  = {| start := Z.of_nat (String.length pre) + 1;
       end_ := Z.of_nat (String.length pre + 1 + String.length stem);
       matchedSlash := false; extIdx := -1;
       firstNonSlashEnd :=
         Z.of_nat (String.length pre + 1 + String.length stem + 3) |}.
Proof.
  intros Hstem.
  replace (String.length (pre +:+ "/" +:+ stem +:+ ".md"))
    with (String.length (pre +:+ "/") + String.length stem + 3)
    by (rewrite !length_append; simpl; lia).
  replace (pre +:+ "/" +:+ stem +:+ ".md")
    with (((pre +:+ "/") +:+ stem) +:+ ".md") by (now rewrite !append_assoc).
  rewrite ext_loop_md by (rewrite !length_append; lia).
  rewrite (append_assoc (pre +:+ "/")).
  rewrite ext_loop_component;
    [| assumption | unfold settled; simpl; repeat split; lia].
  unfold breakAt; simpl. rewrite length_append; simpl. f_equal; lia.
Qed.

(** The base name of a file [stem.md] in a directory, without the suffix:
    [stem]. *)
Lemma basename_md_stem (pre stem : string) :
  noSlash stem = true -> stem <> "" ->
  basename (pre +:+ "/" +:+ stem +:+ ".md") (Some ".md") = stem.
Proof.
  intros Hstem Hne.
  assert (1 <= String.length stem) by (destruct stem; simpl; [congruence|lia]).
  assert (String.length (pre +:+ "/" +:+ stem +:+ ".md")
          = String.length pre + 1 + String.length stem + 3) as Hlen
    by (rewrite !length_append; simpl; lia).
  unfold basename. rewrite ext_loop_md_stem by assumption.
  destruct (String.eqb_spec ".md" (pre +:+ "/" +:+ stem +:+ ".md")) as [E|_].
  { apply (f_equal String.length) in E. rewrite Hlen in E. simpl in E. lia. }
  rewrite Hlen. change (String.length ".md") with 3.
  destruct (Nat.ltb_spec 0 3) as [_|E]; [|lia].
  destruct (Nat.leb_spec 3 (String.length pre + 1 + String.length stem + 3))
    as [_|E]; [|lia].
  cbn [andb start end_ firstNonSlashEnd].
  destruct (Z.eqb_spec (Z.of_nat (String.length pre) + 1)
              (Z.of_nat (String.length pre + 1 + String.length stem)))
    as [E|_]; [lia|].
  destruct (Z.eqb_spec
              (Z.of_nat (String.length pre + 1 + String.length stem)) (-1))
    as [E|_]; [lia|].
  replace (Z.of_nat (String.length pre) + 1)%Z
    with (Z.of_nat (String.length (pre +:+ "/")))
    by (rewrite length_append; simpl; lia).
  replace (String.length pre + 1) with (String.length (pre +:+ "/"))
    by (rewrite length_append; simpl; lia).
  rewrite <- (append_assoc pre "/"). apply slice_middle.
Qed.

(** *** [basename] when the suffix is not there *)

Lemma extMatch_miss_first (sfx : string) (i : nat) (c c' : ascii)
  (s e x : Z) (m : bool) :
  (0 <= x)%Z -> charAt sfx (Z.to_nat x) = Some c' -> c <> c' ->
  extMatch sfx i (Some c) (mkB s e m x (-1))
  = mkB s (Z.of_nat i + 1) false (-1) (Z.of_nat i + 1).
Proof.
  intros Hx Hc Hne. unfold extMatch.
  cbn [extIdx start end_ matchedSlash firstNonSlashEnd].
  change (-1 =? -1)%Z with true.
  cbn [extIdx start end_ matchedSlash firstNonSlashEnd].
  destruct (Z.leb_spec 0 x) as [_|]; [|lia].
  rewrite Hc; cbn [sameCode].
  destruct (Ascii.eqb_spec c c'); [contradiction | reflexivity].
Qed.

Lemma extMatch_miss_next (sfx : string) (i : nat) (c c' : ascii)
  (s e x f : Z) (m : bool) :
  f <> (-1)%Z -> (0 <= x)%Z -> charAt sfx (Z.to_nat x) = Some c' -> c <> c' ->
  extMatch sfx i (Some c) (mkB s e m x f) = mkB s f m (-1) f.
Proof.
  intros Hf Hx Hc Hne. unfold extMatch.
  cbn [extIdx start end_ matchedSlash firstNonSlashEnd].
  destruct (Z.eqb_spec f (-1)) as [|_]; [contradiction|].
  cbn [extIdx start end_ matchedSlash firstNonSlashEnd].
  destruct (Z.leb_spec 0 x) as [_|]; [|lia].
  rewrite Hc; cbn [sameCode].
  destruct (Ascii.eqb_spec c c'); [contradiction | reflexivity].
Qed.

Lemma snoc_cases (s : string) :
  s = "" \/ exists b c, s = b +:+ String c "".
Proof.
  induction s as [|x s IH]; [now left|]. right.
  destruct IH as [-> | (b & c & ->)].
  - now exists "", x.
  - now exists (String x b), c.
Qed.

Lemma noSlash_snoc (b : string) (c : ascii) :
  noSlash (b +:+ String c "") = true ->
  noSlash b = true /\ Ascii.eqb c "/" = false.
Proof.
  rewrite noSlash_app. simpl. rewrite andb_true_r.
  intros [H1 H2%negb_true_iff]%andb_true_iff. auto.
Qed.

Lemma charAt_snoc (p t : string) (c : ascii) :
  charAt (p +:+ String c t) (String.length p) = Some c.
Proof.
  rewrite <- (Nat.add_0_r (String.length p)), charAt_app_r. reflexivity.
Qed.

Lemma ext_loop_at_slash (pre rest sfx : string) (st : bstate) :
  matchedSlash st = false ->
  basename_ext_loop ((pre +:+ "/") +:+ rest) sfx
    (String.length (pre +:+ "/")) st
  = breakAt (String.length pre) st.
Proof.
  intros Hm. rewrite length_append, Nat.add_1_r. apply ext_loop_break.
  - rewrite append_assoc. apply charAt_snoc.
  - exact Hm.
Qed.

Local Ltac no_md_done :=
  eexists _, _; split;
  [ f_equal; first [reflexivity | rewrite ?length_append; simpl; lia]
  | rewrite ?length_append; simpl; lia ].

(** The loop on a component that does not end in [.md]: it stops at the
    separator before the component, and [end] is either the end of the
    path or still unset. *)
Lemma ext_loop_no_md (pre name : string) :
  noSlash name = true -> name <> "" ->
  Js.endsWith name ".md" = false ->
  exists e x,
    basename_ext_loop ((pre +:+ "/") +:+ name) ".md"
      (String.length (pre +:+ "/") + String.length name) (binit ".md")
    = mkB (Z.of_nat (String.length pre) + 1) e false x
        (Z.of_nat (String.length (pre +:+ "/") + String.length name)) /\
    (e = Z.of_nat (String.length (pre +:+ "/") + String.length name)
     \/ e = (-1)%Z).
Proof.
  intros Hname Hne Hmd.
  set (P := pre +:+ "/").
  change (binit ".md") with (mkB 0 (-1) true 2 (-1)).
  destruct (snoc_cases name) as [-> | (b1 & c1 & ->)]; [congruence|].
  destruct (noSlash_snoc _ _ Hname) as [Hb1 Hc1].
  rewrite length_append. simpl String.length.
  replace (String.length P + (String.length b1 + 1))
    with (S (String.length (P +:+ b1))) by (rewrite length_append; lia).
  rewrite <- (append_assoc P b1).
  rewrite (ext_loop_step _ _ _ _ c1 (charAt_snoc _ _ _) Hc1).
  destruct (Ascii.eqb_spec c1 "d") as [-> | Hd].
  2:{ (* the last character is not [d] *)
      rewrite (extMatch_miss_first _ _ _ "d") by (lia || easy).
      rewrite (append_assoc P b1), length_append.
      unfold P. rewrite ext_loop_component;
        [| assumption | unfold settled; simpl; repeat split; lia].
      unfold breakAt; cbn. no_md_done. }
  rewrite extMatch_hit_first by (lia || reflexivity).
  change (2 - 1 =? -1)%Z with false. cbv iota.
  destruct (snoc_cases b1) as [-> | (b2 & c2 & ->)].
  { (* the component is [d] *)
    rewrite (append_assoc P ""), length_append. simpl String.length.
    rewrite Nat.add_0_r. unfold P. rewrite ext_loop_at_slash by reflexivity.
    unfold breakAt; cbn. no_md_done. }
  destruct (noSlash_snoc _ _ Hb1) as [Hb2 Hc2].
  replace (String.length (P +:+ b2 +:+ String c2 ""))
    with (S (String.length (P +:+ b2)))
    by (rewrite !length_append; simpl; lia).
  replace ((P +:+ b2 +:+ String c2 "") +:+ String "d" "")
    with ((P +:+ b2) +:+ String c2 "d") by (now rewrite !append_assoc).
  rewrite (ext_loop_step _ _ _ _ c2 (charAt_snoc _ _ _) Hc2).
  destruct (Ascii.eqb_spec c2 "m") as [-> | Hm].
  2:{ (* the last but one is not [m] *)
      rewrite (extMatch_miss_next _ _ _ "m") by (lia || easy).
      rewrite (append_assoc P b2), length_append.
      unfold P. rewrite ext_loop_component;
        [| assumption | unfold settled; simpl; repeat split; lia].
      unfold breakAt; cbn. no_md_done. }
  rewrite extMatch_hit_next by (lia || reflexivity).
  change (2 - 1 - 1 =? -1)%Z with false. cbv iota.
  destruct (snoc_cases b2) as [-> | (b3 & c3 & ->)].
  { (* the component is [md] *)
    rewrite (append_assoc P ""), length_append. simpl String.length.
    rewrite Nat.add_0_r. unfold P. rewrite ext_loop_at_slash by reflexivity.
    unfold breakAt; cbn. no_md_done. }
  destruct (noSlash_snoc _ _ Hb2) as [Hb3 Hc3].
  replace (String.length (P +:+ b3 +:+ String c3 ""))
    with (S (String.length (P +:+ b3)))
    by (rewrite !length_append; simpl; lia).
  replace ((P +:+ b3 +:+ String c3 "") +:+ String "m" "d")
    with ((P +:+ b3) +:+ String c3 "md") by (now rewrite !append_assoc).
  rewrite (ext_loop_step _ _ _ _ c3 (charAt_snoc _ _ _) Hc3).
  destruct (Ascii.eqb_spec c3 ".") as [-> | Hdot].
  { (* the component ends in [.md] *)
    exfalso. apply endsWith_false in Hmd. apply Hmd.
    exists b3. now rewrite !append_assoc. }
  rewrite (extMatch_miss_next _ _ _ ".") by (lia || easy).
  rewrite (append_assoc P b3), length_append.
  unfold P. rewrite ext_loop_component;
    [| assumption | unfold settled; simpl; repeat split; lia].
  unfold breakAt; cbn. no_md_done.
Qed.

Lemma slice_suffix (a b : string) :
  slice (a +:+ b) (Z.of_nat (String.length a))
    (Z.of_nat (String.length a + String.length b)) = b.
Proof.
  rewrite <- (append_nil_r b) at 1. apply slice_middle.
Qed.

(** The base name of a file in a directory when the name is not a
    non-empty stem followed by [.md]: the whole name. *)
Lemma basename_md_other (pre name : string) :
  noSlash name = true -> name <> "" ->
  (forall stem, stem <> "" -> name <> stem +:+ ".md") ->
  basename (pre +:+ "/" +:+ name) (Some ".md") = name.
Proof.
  intros Hname Hne Hother.
  assert (1 <= String.length name) by (destruct name; simpl; [congruence|lia]).
  assert (String.length (pre +:+ "/" +:+ name)
          = String.length (pre +:+ "/") + String.length name) as Hlen
    by (rewrite !length_append; simpl; lia).
  assert (String.length (pre +:+ "/") = String.length pre + 1) as Hpre
    by (now rewrite length_append).
  unfold basename. change (String.length ".md") with 3.
  change (0 <? 3)%nat with true. cbn [andb].
  destruct (Nat.leb_spec 3 (String.length (pre +:+ "/" +:+ name)))
    as [Hge|Hlt].
  - destruct (String.eqb_spec ".md" (pre +:+ "/" +:+ name)) as [E|_].
    { apply (f_equal noSlash) in E. rewrite !noSlash_app in E.
      simpl in E. rewrite andb_false_r in E. discriminate. }
    destruct (Js.endsWith name ".md") eqn:Hmd.
    + (* the name is [.md] itself *)
      apply endsWith_true in Hmd as [stem ->].
      destruct stem as [|x stem];
        [|now exfalso; apply (Hother (String x stem))].
      pose proof (ext_loop_md_stem pre "" eq_refl) as Hloop.
      change ("" +:+ ".md") with ".md" in *. rewrite Hloop.
      cbn [start end_ firstNonSlashEnd].
      replace (String.length pre + 1 + String.length "")
        with (String.length pre + 1) by (simpl; lia).
      destruct (Z.eqb_spec (Z.of_nat (String.length pre) + 1)
                  (Z.of_nat (String.length pre + 1))) as [_|E]; [|lia].
      replace (Z.of_nat (String.length pre) + 1)%Z
        with (Z.of_nat (String.length (pre +:+ "/"))) by lia.
      replace (String.length pre + 1 + 3)
        with (String.length (pre +:+ "/") + String.length ".md")
        by (simpl; lia).
      rewrite <- (append_assoc pre "/"). apply slice_suffix.
    + (* the name does not end in [.md] *)
      destruct (ext_loop_no_md pre name Hname Hne Hmd)
        as (e & x & Hloop & He).
      rewrite <- (append_assoc pre "/"), Hlen in *. rewrite Hloop.
      cbn [start end_ firstNonSlashEnd].
      replace (Z.of_nat (String.length pre) + 1)%Z
        with (Z.of_nat (String.length (pre +:+ "/"))) by lia.
      destruct (Z.eqb_spec (Z.of_nat (String.length (pre +:+ "/"))) e)
        as [E|_]; [lia|].
      destruct He as [-> | ->].
      * destruct (Z.eqb_spec
                    (Z.of_nat (String.length (pre +:+ "/")
                               + String.length name)) (-1))
          as [E|_]; [lia|]. apply slice_suffix.
      * change (-1 =? -1)%Z with true. cbv iota. apply slice_suffix.
  - (* a path of two characters: the loop without a suffix *)
    destruct pre as [|? pre]; [|simpl in *; lia].
    destruct name as [|c [|? name]]; [congruence | | simpl in *; lia].
    simpl in Hname. rewrite andb_true_r in Hname.
    apply negb_true_iff in Hname.
    cbn. rewrite Hname. cbn. reflexivity.
Qed.

(** *** [normalize] on a normalized absolute path *)

Lemma nloop_app (a : bool) (p q : string) (st : nstate) :
  nloop a (p +:+ q) st = nloop a q (nloop a p st).
Proof. revert st; induction p as [|c p IH]; intros st; simpl; auto. Qed.

(** The characters of a component are collected in [seg]. *)
Lemma nloop_component (a : bool) (s : string) (st : nstate) :
  noSlash s = true ->
  nloop a s st =
    {| res := res st; lastSegmentLength := lastSegmentLength st;
       seg := seg st +:+ s; dots := dotsAfter (dots st) s;
       code := lastCode (code st) s |}.
Proof.
  revert st; induction s as [|c s IH]; intros st H; simpl in *.
  - rewrite append_nil_r. now destruct st.
  - apply andb_true_iff in H as [Hc Hs]. apply negb_true_iff in Hc.
    rewrite IH by assumption. unfold nstep. rewrite Hc.
    destruct (Ascii.eqb c "." && negb (dots st =? -1)%Z); simpl;
      now rewrite append_assoc.
Qed.

Lemma dotsAfter_stuck (s : string) : dotsAfter (-1) s = (-1)%Z.
Proof.
  induction s as [|c s IH]; simpl; [reflexivity|].
  now rewrite andb_false_r.
Qed.

Lemma dotsAfter_allDots (d : Z) (s : string) :
  (0 <= d)%Z ->
  dotsAfter d s
    = if allDots s then (d + Z.of_nat (String.length s))%Z else (-1)%Z.
Proof.
  revert d; induction s as [|c s IH]; intros d Hd; simpl.
  - lia.
  - destruct (Z.eqb_spec d (-1)) as [|_]; [lia|].
    destruct (Ascii.eqb c "."); simpl.
    + rewrite IH by lia. destruct (allDots s); lia.
    + apply dotsAfter_stuck.
Qed.

Lemma allDots_1 (s : string) :
  allDots s = true -> String.length s = 1 -> s = ".".
Proof.
  destruct s as [|c [|c' s]]; simpl; try discriminate.
  intros H _. rewrite andb_true_r in H. now apply Ascii.eqb_eq in H as ->.
Qed.

Lemma allDots_2 (s : string) :
  allDots s = true -> String.length s = 2 -> s = "..".
Proof.
  destruct s as [|c [|c' [|c'' s]]]; simpl; try discriminate.
  intros H _. rewrite andb_true_r in H.
  apply andb_true_iff in H as [H1 H2].
  apply Ascii.eqb_eq in H1 as ->. now apply Ascii.eqb_eq in H2 as ->.
Qed.

(** What [normalizeString] needs of a component to keep it. *)
Lemma isSegment_spec (s : string) :
  isSegment s = true ->
  s <> "" /\ noSlash s = true /\
  dotsAfter 0 s <> 1%Z /\ dotsAfter 0 s <> 2%Z.
Proof.
  unfold isSegment. intros H.
  apply andb_true_iff in H as [H H2]. apply andb_true_iff in H as [H H1].
  apply andb_true_iff in H as [H0 Hs].
  apply negb_true_iff, String.eqb_neq in H0, H1, H2.
  rewrite dotsAfter_allDots by lia.
  repeat split; auto; destruct (allDots s) eqn:Hd; try lia; intros E.
  - apply H1, allDots_1; [assumption | lia].
  - apply H2, allDots_2; [assumption | lia].
Qed.

(** A separator after a component appends the component to [res]. *)
Lemma onSeparator_keep (a : bool) (c c0 : ascii) (r s : string) (l : Z) :
  isSegment s = true ->
  onSeparator a c
    {| res := r; lastSegmentLength := l; seg := s; dots := dotsAfter 0 s;
       code := c0 |}
  = afterSlash (if (0 <? String.length r)%nat then r +:+ "/" +:+ s else s)
      (Z.of_nat (String.length s)) c.
Proof.
  intros (Hne & _ & H1 & H2)%isSegment_spec. unfold onSeparator; simpl.
  destruct (String.eqb_spec s "") as [|_]; [contradiction|].
  destruct (Z.eqb_spec (dotsAfter 0 s) 1) as [|_]; [contradiction|].
  destruct (Z.eqb_spec (dotsAfter 0 s) 2) as [|_]; [contradiction|].
  reflexivity.
Qed.

(** A separator right after a separator is skipped. *)
Lemma onSeparator_skip (a : bool) (c c0 : ascii) (r : string) (l : Z) :
  onSeparator a c (afterSlash r l c0) = afterSlash r l c.
Proof. reflexivity. Qed.

(** From a state with the component [s] pending, the rest of an absolute
    path and the closing separator give [res], [s] and the path. *)
Lemma nloop_absPath (segs : list string) :
  Forall (fun s => isSegment s = true) segs ->
  forall (r s : string) (l : Z) (c0 : ascii),
    isSegment s = true ->
    res (onSeparator false "/"
           (nloop false (absPath segs)
              {| res := r; lastSegmentLength := l; seg := s;
                 dots := dotsAfter 0 s; code := c0 |}))
    = (if (0 <? String.length r)%nat then r +:+ "/" +:+ s else s)
      +:+ absPath segs.
Proof.
  induction 1 as [|s' segs Hs' _ IH]; intros r s l c0 Hs.
  - simpl. rewrite onSeparator_keep by assumption. simpl.
    now rewrite append_nil_r.
  - change (absPath (s' :: segs)) with ("/" +:+ s' +:+ absPath segs).
    rewrite nloop_app. change (nloop false "/" ?st) with (nstep false st "/").
    unfold nstep at 1. change (Ascii.eqb "/" "/") with true. cbv iota.
    rewrite onSeparator_keep by assumption.
    set (r' := if (0 <? String.length r)%nat then r +:+ "/" +:+ s else s).
    assert (0 < String.length r') as Hpos.
    { destruct (isSegment_spec s Hs) as (Hne & _). unfold r'.
      destruct (0 <? String.length r)%nat; [rewrite length_append; simpl; lia|].
      destruct s; simpl; [congruence|lia]. }
    rewrite nloop_app.
    rewrite (nloop_component false s') by (now apply isSegment_spec in Hs').
    unfold afterSlash. cbn [res lastSegmentLength seg dots code].
    change ("" +:+ s') with s'.
    rewrite IH by assumption.
    destruct (Nat.ltb_spec 0 (String.length r')) as [_|E]; [|lia].
    now rewrite !append_assoc.
Qed.

Lemma nstep_code (a : bool) (st : nstate) (c : ascii) :
  code (nstep a st c) = c.
Proof.
  unfold nstep, onSeparator, afterSlash.
  repeat match goal with
         | |- context [if ?b then _ else _] => destruct b
         end; reflexivity.
Qed.

Lemma nloop_code (a : bool) (p : string) (st : nstate) :
  code (nloop a p st) = lastCode (code st) p.
Proof.
  revert st; induction p as [|c p IH]; intros st; simpl; [reflexivity|].
  now rewrite IH, nstep_code.
Qed.

Lemma lastCode_app (c : ascii) (p q : string) :
  lastCode c (p +:+ q) = lastCode (lastCode c p) q.
Proof. revert c; induction p as [|x p IH]; intros c; simpl; auto. Qed.

Lemma lastCode_noSlash (c : ascii) (s : string) :
  noSlash s = true -> s <> "" -> Ascii.eqb (lastCode c s) "/" = false.
Proof.
  revert c; induction s as [|x s IH]; intros c H Hne; [congruence|].
  simpl in *. apply andb_true_iff in H as [Hx Hs].
  destruct s as [|y s]; [now apply negb_true_iff in Hx|].
  apply IH; [assumption | discriminate].
Qed.

Lemma lastCode_absPath (c : ascii) (segs : list string) :
  Ascii.eqb c "/" = false ->
  Forall (fun s => isSegment s = true) segs ->
  Ascii.eqb (lastCode c (absPath segs)) "/" = false.
Proof.
  intros Hc H. revert c Hc. induction H as [|s segs Hs _ IH]; intros c Hc.
  - exact Hc.
  - change (absPath (s :: segs)) with ("/" +:+ s +:+ absPath segs).
    rewrite !lastCode_app. apply IH.
    destruct (isSegment_spec s Hs) as (Hne & Hn & _).
    now apply lastCode_noSlash.
Qed.

Lemma charAt_last (c : ascii) (p : string) :
  p <> "" -> charAt p (String.length p - 1) = Some (lastCode c p).
Proof.
  unfold charAt. revert c; induction p as [|x p IH]; intros c H; [congruence|].
  destruct p as [|y p]; [reflexivity|].
  replace (String.length (String x (String y p)) - 1)
    with (S (String.length (String y p) - 1)) by (simpl; lia).
  change (lastCode c (String x (String y p)))
    with (lastCode x (String y p)).
  rewrite <- (IH x) by discriminate. reflexivity.
Qed.

(** [normalizeString] keeps an absolute path made of components; one more
    separator at its head changes nothing. *)
Lemma normalizeString_absPath (lead s : string) (segs : list string) :
  lead = "/" \/ lead = "//" ->
  isSegment s = true ->
  Forall (fun s => isSegment s = true) segs ->
  normalizeString (lead +:+ s +:+ absPath segs) false = s +:+ absPath segs.
Proof.
  intros Hlead Hs Hsegs.
  destruct (isSegment_spec s Hs) as (Hne & Hn & _).
  assert (nloop false lead ninit = afterSlash "" 0 "/") as Hl
    by (destruct Hlead as [-> | ->]; reflexivity).
  unfold normalizeString.
  rewrite nloop_code.
  rewrite !lastCode_app.
  rewrite lastCode_absPath;
    [| now apply lastCode_noSlash | assumption].
  rewrite !nloop_app, Hl, (nloop_component false s) by assumption.
  unfold afterSlash. cbn [res lastSegmentLength seg dots code].
  change ("" +:+ s) with s.
  rewrite nloop_absPath by assumption. reflexivity.
Qed.

Lemma normalize_absPath (lead s : string) (segs : list string) :
  lead = "/" \/ lead = "//" ->
  isSegment s = true ->
  Forall (fun s => isSegment s = true) segs ->
  normalize (lead +:+ s +:+ absPath segs) = "/" +:+ s +:+ absPath segs.
Proof.
  intros Hlead Hs Hsegs.
  destruct (isSegment_spec s Hs) as (Hne & Hn & _).
  assert (1 <= String.length s) by (destruct s; simpl; [congruence|lia]).
  unfold normalize.
  assert (isChar "/" (charAt (lead +:+ s +:+ absPath segs) 0) = true) as ->
    by (destruct Hlead as [-> | ->]; reflexivity).
  change (negb true) with false.
  rewrite normalizeString_absPath by assumption.
  assert (lead +:+ s +:+ absPath segs <> "") as Hp
    by (destruct Hlead as [-> | ->]; discriminate).
  rewrite (charAt_last "/" _ Hp), !lastCode_app.
  cbn [isChar].
  rewrite lastCode_absPath;
    [| now apply lastCode_noSlash | assumption].
  destruct (Nat.eqb_spec (String.length (lead +:+ s +:+ absPath segs)) 0)
    as [E|_]; [rewrite !length_append in E; lia|].
  destruct (Nat.eqb_spec (String.length (s +:+ absPath segs)) 0)
    as [E|_]; [rewrite !length_append in E; lia|].
  reflexivity.
Qed.

Lemma join_two (a b : string) :
  a <> "" -> b <> "" -> join [a; b] = normalize (a +:+ "/" +:+ b).
Proof.
  intros Ha Hb. unfold join, joinStep; simpl.
  destruct a; [congruence|]. destruct b; [congruence|]. reflexivity.
Qed.

Lemma absPath_app (a b : list string) :
  absPath (a ++ b) = absPath a +:+ absPath b.
Proof.
  induction a as [|s a IH]; simpl; [reflexivity|]. now rewrite IH, append_assoc.
Qed.

Lemma isSegment_docx (stem : string) :
  noSlash stem = true -> isSegment (stem +:+ ".docx") = true.
Proof.
  intros H. unfold isSegment. rewrite noSlash_app, H.
  assert (forall t, String.length t < 5 ->
            String.eqb (stem +:+ ".docx") t = false) as Hlen.
  { intros t Ht. apply String.eqb_neq. intros E.
    apply (f_equal String.length) in E. rewrite length_append in E.
    simpl in E. lia. }
  rewrite !Hlen by (simpl; lia). reflexivity.
Qed.

(** The directory of a file, whatever the directory is written like. *)
Lemma dirname_any (dir name : string) :
  noSlash name = true -> name <> "" ->
  dirname (dir +:+ "/" +:+ name)
  = if (String.length dir =? 0)%nat then "/"
    else if isChar "/" (charAt dir 0) && (String.length dir =? 1)%nat
         then "//" else dir.
Proof.
  intros Hname Hne. unfold dirname.
  rewrite dirname_loop_end by assumption.
  rewrite length_append at 1.
  destruct (Nat.eqb_spec (String.length dir + String.length ("/" +:+ name)) 0)
    as [E|_]; [simpl in E; lia|].
  destruct dir as [|c dir]; [reflexivity|].
  change (charAt (String c dir +:+ "/" +:+ name) 0) with (Some c).
  change (charAt (String c dir) 0) with (Some c).
  change (String.length (String c dir) =? 0)%nat with false. cbv iota.
  destruct (Z.eqb_spec (Z.of_nat (String.length (String c dir))) (-1))
    as [E|_]; [lia|].
  replace (Z.of_nat (String.length (String c dir)) =? 1)%Z
    with (String.length (String c dir) =? 1)%nat
    by (destruct (Nat.eqb_spec (String.length (String c dir)) 1);
        destruct (Z.eqb_spec (Z.of_nat (String.length (String c dir))) 1);
        (reflexivity || lia)).
  destruct (isChar "/" (Some c) && (String.length (String c dir) =? 1)%nat);
    [reflexivity|].
  apply slice_prefix.
Qed.

(** One more separator at the head of an absolute path is dropped. *)
Lemma normalize_extra_slash (p : string) :
  normalize ("/" +:+ "/" +:+ p) = normalize ("/" +:+ p).
Proof.
  destruct p as [|c p]; [reflexivity|].
  unfold normalize.
  change (String.length ("/" +:+ "/" +:+ String c p) =? 0)%nat with false.
  change (String.length ("/" +:+ String c p) =? 0)%nat with false.
  cbv iota.
  rewrite (charAt_last "/" ("/" +:+ "/" +:+ String c p)) by discriminate.
  rewrite (charAt_last "/" ("/" +:+ String c p)) by discriminate.
  change (lastCode "/" ("/" +:+ "/" +:+ String c p))
    with (lastCode "/" ("/" +:+ String c p)).
  replace (normalizeString ("/" +:+ "/" +:+ String c p)
             (negb (isChar "/" (charAt ("/" +:+ "/" +:+ String c p) 0))))
    with (normalizeString ("/" +:+ String c p)
             (negb (isChar "/" (charAt ("/" +:+ String c p) 0))));
    reflexivity.
Qed.

End NodePathFacts.

(** ** The output path of a conversion *)

Module MainFacts.

Import Js NodePath PathShape StringFacts NodePathFacts Main.

(** The handler settles once the converter has ended: it resolves with
    [outputFile filePath] when the exit code is 0 and rejects with what the
    converter wrote to its error output otherwise. *)
Lemma convertFile_settles (env : Env) (filePath : string)
  (settings : gmap string Value) :
  exists exit,
    (exitCode exit = Some 0%Z /\
     convertFile env filePath settings = Resolved (outputFile filePath)) \/
    (exitCode exit <> Some 0%Z /\
     convertFile env filePath settings
       = Rejected ("Conversion failed: " +:+ stderr exit)).
Proof.
  unfold convertFile. set (exit := spawn env _ _ _). exists exit.
  destruct (exitCode exit) as [[| |]|]; [left | right ..];
    split; try reflexivity; discriminate.
Qed.

(** When the handler resolves, it is with [outputFile filePath]. *)
Lemma convertFile_resolved (env : Env) (filePath out : string)
  (settings : gmap string Value) :
  convertFile env filePath settings = Resolved out ->
  out = outputFile filePath.
Proof.
  unfold convertFile.
  destruct (exitCode _) as [[| |]|]; intros H; now inversion H.
Qed.

(** The output path of a file in the directory [dirs], from the base
    name that [basename] finds for it. *)
Lemma outputFile_in_dir (dirs : list string) (name base : string) :
  Forall (fun s => isSegment s = true) dirs ->
  noSlash name = true -> name <> "" ->
  basename (absPath dirs +:+ "/" +:+ name) (Some ".md") = base ->
  noSlash base = true ->
  outputFile (absPath dirs +:+ "/" +:+ name)
    = absPath dirs +:+ "/" +:+ base +:+ ".docx".
Proof.
  intros Hdirs Hname Hne Hbase Hnb. unfold outputFile. rewrite Hbase.
  assert (base +:+ ".docx" <> "") as Hout by (destruct base; discriminate).
  pose proof (isSegment_docx base Hnb) as Hseg.
  destruct Hdirs as [|d ds Hd Hds].
  - change (absPath []) with "". change ("" +:+ ?x) with x.
    rewrite dirname_root_file by assumption.
    rewrite join_two by (assumption || discriminate).
    replace ("/" +:+ "/" +:+ base +:+ ".docx")
      with ("//" +:+ (base +:+ ".docx") +:+ absPath [])
      by (simpl; now rewrite append_nil_r).
    rewrite normalize_absPath by auto. simpl. now rewrite append_nil_r.
  - destruct (isSegment_spec d Hd) as (Hdne & _).
    assert (2 <= String.length (absPath (d :: ds))) as Hlen.
    { simpl. rewrite length_append. destruct d; simpl; [congruence|lia]. }
    rewrite dirname_file by assumption.
    rewrite join_two; [| destruct d; discriminate | assumption].
    change (absPath (d :: ds)) with ("/" +:+ d +:+ absPath ds).
    replace (("/" +:+ d +:+ absPath ds) +:+ "/" +:+ base +:+ ".docx")
      with ("/" +:+ d +:+ absPath (ds ++ [base +:+ ".docx"])).
    + rewrite normalize_absPath; auto.
      apply Forall_app; split; [assumption|]. now constructor.
    + rewrite absPath_app. simpl. now rewrite append_nil_r, !append_assoc.
Qed.

(** The output path for [stem.md] in the directory [dirs]: [stem.docx] in
    the same directory. *)
Lemma outputFile_md (dirs : list string) (stem : string) :
  Forall (fun s => isSegment s = true) dirs ->
  noSlash stem = true -> stem <> "" ->
  outputFile (absPath dirs +:+ "/" +:+ stem +:+ ".md")
    = absPath dirs +:+ "/" +:+ stem +:+ ".docx".
Proof.
  intros Hdirs Hstem Hne.
  apply outputFile_in_dir; auto.
  - now rewrite noSlash_app, Hstem.
  - destruct stem; discriminate.
  - now apply basename_md_stem.
Qed.

(** X26. The output path for any other name: a file of a normalized
    absolute directory whose name is not a non-empty stem followed by [.md]
    gets [.docx] after its whole name, in the same directory. *)
Lemma outputFile_other (dirs : list string) (name : string) :
  Forall (fun s => isSegment s = true) dirs ->
  noSlash name = true -> name <> "" ->
  (forall stem, stem <> "" -> name <> stem +:+ ".md") ->
  outputFile (absPath dirs +:+ "/" +:+ name)
    = absPath dirs +:+ "/" +:+ name +:+ ".docx".
Proof.
  intros Hdirs Hname Hne Hother.
  apply outputFile_in_dir; auto. now apply basename_md_other.
Qed.

Lemma outputFile_other_witness :
  outputFile (absPath ["docs"] +:+ "/" +:+ "notes.markdown")
    = absPath ["docs"] +:+ "/" +:+ "notes.markdown" +:+ ".docx".
Proof.
  apply (outputFile_other ["docs"] "notes.markdown").
  - repeat constructor.
  - reflexivity.
  - discriminate.
  - intros stem _ E.
    assert (Js.endsWith "notes.markdown" ".md" = false) as H by reflexivity.
    apply endsWith_false in H. apply H. now exists stem.
Defined.

(** X27. The output path for [stem.md] after any directory text, relative
    or not normalized included: [stem.docx] after the same directory, the
    whole normalized. *)
Lemma outputFile_md_any (dir stem : string) :
  noSlash stem = true -> stem <> "" ->
  outputFile (dir +:+ "/" +:+ stem +:+ ".md")
    = normalize (dir +:+ "/" +:+ stem +:+ ".docx").
Proof.
  intros Hstem Hne. unfold outputFile.
  rewrite basename_md_stem by assumption.
  rewrite dirname_any;
    [| now rewrite noSlash_app, Hstem | destruct stem; discriminate].
  assert (stem +:+ ".docx" <> "") as Hout by (destruct stem; discriminate).
  destruct dir as [|c dir].
  - change (String.length "" =? 0)%nat with true. cbv iota.
    rewrite join_two by (assumption || discriminate).
    apply normalize_extra_slash.
  - change (String.length (String c dir) =? 0)%nat with false. cbv iota.
    destruct (isChar "/" (charAt (String c dir) 0)
              && (String.length (String c dir) =? 1)%nat) eqn:E.
    + apply andb_true_iff in E as [Hc Hl].
      destruct dir; [|discriminate]. apply Ascii.eqb_eq in Hc as ->.
      rewrite join_two by (assumption || discriminate).
      apply (normalize_extra_slash ("/" +:+ stem +:+ ".docx")).
    + now rewrite join_two by (assumption || discriminate).
Qed.

Lemma outputFile_md_any_witness :
  outputFile ("docs/../out" +:+ "/" +:+ "a" +:+ ".md")
    = normalize ("docs/../out" +:+ "/" +:+ "a" +:+ ".docx").
Proof.
  apply (outputFile_md_any "docs/../out" "a"); [reflexivity | discriminate].
Defined.

(** C9, as amended. A successful conversion of a file whose base name is a
    non-empty stem followed by [.md] resolves with the path of [stem.docx]
    in the directory of the input. *)
Theorem convertFile_output_md (env : Env) (settings : gmap string Value)
  (dirs : list string) (stem out : string) :
  Forall (fun s => isSegment s = true) dirs ->
  noSlash stem = true -> stem <> "" ->
  convertFile env (absPath dirs +:+ "/" +:+ stem +:+ ".md") settings
    = Resolved out ->
  out = absPath dirs +:+ "/" +:+ stem +:+ ".docx".
Proof.
  intros Hdirs Hstem Hne H%convertFile_resolved.
  now rewrite H, outputFile_md.
Qed.

Lemma convertFile_output_md_witness :
  "/docs/report.docx" = absPath ["docs"] +:+ "/" +:+ "report" +:+ ".docx".
Proof.
  apply (convertFile_output_md
           {| __dirname := "/app/electron"; existsSync := fun _ => false;
              stringify := fun _ => "{}";
              spawn := fun _ _ _ => mkExit (Some 0%Z) "" "" |}
           Settings.initialSettings ["docs"] "report" "/docs/report.docx").
  - repeat constructor.
  - reflexivity.
  - discriminate.
  - reflexivity.
Defined.

(** C9 as stated does not hold of every input file: the handler looks for
    a lowercase [.md] only, and a file chosen in the dialog need not end in
    it; [.docx] is then put after the whole base name. *)
Lemma convertFile_output_not_md_replaced :
  let env := {| __dirname := "/app/electron"; existsSync := fun _ => false;
                stringify := fun _ => "{}";
                spawn := fun _ _ _ => mkExit (Some 0%Z) "" "" |} in
  convertFile env "/docs/README.MD" Settings.initialSettings
    = Resolved "/docs/README.MD.docx" /\
  ~ mdReplaced "/docs/README.MD" "/docs/README.MD.docx".
Proof.
  split; [reflexivity|].
  intros (dir & stem & Hp & _ & _).
  assert (Js.endsWith "/docs/README.MD" ".md" = false) as H by reflexivity.
  apply endsWith_false in H. apply H.
  exists (dir +:+ "/" +:+ stem). now rewrite !append_assoc.
Qed.

(** The same for a file with another extension, and for the file whose
    whole name is [.md]. *)
Example outputFile_other_extension :
  outputFile "/docs/notes.txt" = "/docs/notes.txt.docx".
Proof. reflexivity. Qed.

Example outputFile_bare_md :
  outputFile "/docs/.md" = "/docs/.md.docx" /\
  ~ mdReplaced "/docs/.md" (outputFile "/docs/.md").
Proof.
  split; [reflexivity|].
  change (outputFile "/docs/.md") with "/docs/.md.docx".
  intros (dir & stem & Hp & _ & Ho).
  assert (dir +:+ "/" +:+ stem = "/docs/") as H1.
  { apply (append_inv_tail _ _ ".md"). now rewrite !append_assoc. }
  assert (dir +:+ "/" +:+ stem = "/docs/.md") as H2.
  { apply (append_inv_tail _ _ ".docx"). now rewrite !append_assoc. }
  congruence.
Qed.

(** [normalize] never returns the empty string. *)
Lemma normalize_nonempty (p : string) : normalize p <> "".
Proof.
  unfold normalize.
  destruct (String.length p =? 0)%nat; [discriminate|].
  set (p' := normalizeString p _).
  destruct (Nat.eqb_spec (String.length p') 0) as [_|Hp'].
  - destruct (isChar _ (charAt p 0)); [discriminate|].
    destruct (isChar _ _); discriminate.
  - assert (forall q, String.length q <> 0 -> q <> "") as Hq
      by (intros q Hq ->; now apply Hq).
    destruct (isChar _ (charAt p 0)); [discriminate|].
    destruct (isChar _ _); apply Hq; [|assumption].
    rewrite length_append. lia.
Qed.

(** X28. The output path is never the empty string, whatever the input
    path is, the empty one included. *)
Lemma outputFile_nonempty (filePath : string) : outputFile filePath <> "".
Proof.
  unfold outputFile, join.
  destruct (fold_left _ _ _); [apply normalize_nonempty | discriminate].
Qed.

End MainFacts.

(** ** [normalize] and a step up to the parent directory *)

Module ParentFacts.

Import Js NodePath PathShape PathParts StringFacts NodePathFacts.

Lemma relPath_snoc (init : list string) (d : string) :
  relPath (init ++ [d])
  = match init with
    | [] => d
    | _ :: _ => relPath init +:+ "/" +:+ d
    end.
Proof.
  destruct init as [|s init]; simpl.
  - apply append_nil_r.
  - rewrite absPath_app. simpl. now rewrite append_nil_r, !append_assoc.
Qed.

Lemma absPath_relPath (s : string) (segs : list string) :
  absPath (s :: segs) = "/" +:+ relPath (s :: segs).
Proof. reflexivity. Qed.

Lemma last_default (t : list string) (x d d' : string) :
  List.last (x :: t) d = List.last (x :: t) d'.
Proof.
  revert x; induction t as [|y t IH]; intros x; [reflexivity|].
  change (List.last (y :: t) d = List.last (y :: t) d'). apply IH.
Qed.

(** The state after the components of an absolute path and the separator
    that follows them. *)
Lemma nloop_absPath_state (segs : list string) :
  Forall (fun s => isSegment s = true) segs ->
  forall (r s : string) (l : Z) (c0 : ascii),
    isSegment s = true ->
    onSeparator false "/"
      (nloop false (absPath segs)
         {| res := r; lastSegmentLength := l; seg := s;
            dots := dotsAfter 0 s; code := c0 |})
    = afterSlash
        ((if (0 <? String.length r)%nat then r +:+ "/" +:+ s else s)
         +:+ absPath segs)
        (Z.of_nat (String.length (List.last segs s))) "/".
Proof.
  induction 1 as [|s' segs Hs' _ IH]; intros r s l c0 Hs.
  - simpl. rewrite onSeparator_keep by assumption.
    now rewrite append_nil_r.
  - change (absPath (s' :: segs)) with ("/" +:+ s' +:+ absPath segs).
    rewrite nloop_app. change (nloop false "/" ?st) with (nstep false st "/").
    unfold nstep at 1. change (Ascii.eqb "/" "/") with true. cbv iota.
    rewrite onSeparator_keep by assumption.
    set (r' := if (0 <? String.length r)%nat then r +:+ "/" +:+ s else s).
    assert (0 < String.length r') as Hpos.
    { destruct (isSegment_spec s Hs) as (Hne & _). unfold r'.
      destruct (0 <? String.length r)%nat;
        [rewrite length_append; simpl; lia|].
      destruct s; simpl; [congruence|lia]. }
    rewrite nloop_app.
    rewrite (nloop_component false s') by (now apply isSegment_spec in Hs').
    unfold afterSlash at 1. cbn [res lastSegmentLength seg dots code].
    change ("" +:+ s') with s'.
    rewrite IH by assumption.
    destruct (Nat.ltb_spec 0 (String.length r')) as [_|E]; [|lia].
    rewrite !append_assoc. f_equal. f_equal. f_equal.
    destruct segs as [|x t]; [reflexivity|].
    change (List.last (s' :: x :: t) s) with (List.last (x :: t) s).
    apply last_default.
Qed.

Lemma lastIndexOf_from_app (a b : string) (c : ascii) (i found : Z) :
  lastIndexOf_from (a +:+ b) c i found
  = lastIndexOf_from b c (i + Z.of_nat (String.length a))
      (lastIndexOf_from a c i found).
Proof.
  revert i found; induction a as [|x a IH]; intros i found; simpl.
  - now rewrite Z.add_0_r.
  - rewrite IH. f_equal. lia.
Qed.

Lemma lastIndexOf_from_noSlash (s : string) (i found : Z) :
  noSlash s = true -> lastIndexOf_from s "/" i found = found.
Proof.
  revert i found; induction s as [|x s IH]; intros i found H; simpl in *;
    [reflexivity|].
  apply andb_true_iff in H as [Hx Hs]. apply negb_true_iff in Hx.
  rewrite Hx. now apply IH.
Qed.

(** The last separator of [a/d] is the one before [d]. *)
Lemma lastIndexOf_last (a d : string) :
  noSlash d = true ->
  lastIndexOf (a +:+ "/" +:+ d) "/" = Z.of_nat (String.length a).
Proof.
  intros Hd. unfold lastIndexOf.
  rewrite lastIndexOf_from_app.
  change ("/" +:+ d) with (String "/" d). simpl.
  now rewrite lastIndexOf_from_noSlash.
Qed.

Lemma isChar_charAt_app_r (p d : string) (k : nat) :
  k < String.length d ->
  charAt (p +:+ d) (String.length (p +:+ d) - S k)
  = charAt d (String.length d - S k).
Proof.
  intros Hk. rewrite length_append.
  replace (String.length p + String.length d - S k)
    with (String.length p + (String.length d - S k)) by lia.
  apply charAt_app_r.
Qed.

(** A component of two characters that is not [..] has a character that
    is not a dot. *)
Lemma segment_not_dotdot (d : string) :
  isSegment d = true -> String.length d = 2 ->
  negb (isChar "." (charAt d (String.length d - 1)))
  || negb (isChar "." (charAt d (String.length d - 2))) = true.
Proof.
  unfold isSegment. intros H Hl.
  destruct d as [|a [|b [|c d]]]; try discriminate Hl.
  apply andb_true_iff in H as [_ H]. apply negb_true_iff in H.
  simpl. destruct (Ascii.eqb_spec a "."), (Ascii.eqb_spec b ".");
    subst; simpl in *; try reflexivity. discriminate H.
Qed.

(** [..] after a component takes the component away. *)
Lemma onSeparator_dotdot (init : list string) (d : string) (c c0 : ascii) :
  Forall (fun s => isSegment s = true) init -> isSegment d = true ->
  exists l,
    onSeparator false c
      {| res := relPath (init ++ [d]);
         lastSegmentLength := Z.of_nat (String.length d);
         seg := ".."; dots := 2; code := c0 |}
    = afterSlash (relPath init) l c.
Proof.
  intros Hinit Hd.
  destruct (isSegment_spec d Hd) as (Hne & Hns & _).
  assert (1 <= String.length d) as Hlen
    by (destruct d; simpl; [congruence|lia]).
  set (R := relPath (init ++ [d])).
  assert (exists p, R = p +:+ d /\
            (init = [] /\ p = "" \/
             init <> [] /\ p = relPath init +:+ "/" /\
             1 <= String.length (relPath init))) as (p & HR & Hp).
  { unfold R. rewrite relPath_snoc. destruct init as [|s init].
    - exists "". split; [reflexivity|]. now left.
    - exists (relPath (s :: init) +:+ "/"). split;
        [now rewrite append_assoc|]. right. split; [discriminate|].
      split; [reflexivity|]. simpl. rewrite length_append.
      pose proof (List.Forall_inv Hinit) as Hs.
      destruct (isSegment_spec s Hs) as (Hsne & _).
      destruct s; simpl; [congruence|lia]. }
  assert (String.length R = String.length p + String.length d) as HRlen
    by (rewrite HR; apply length_append).
  unfold onSeparator. cbn [res lastSegmentLength seg dots code].
  change (String.eqb ".." "") with false. change (2 =? 1)%Z with false.
  change (2 =? 2)%Z with true. cbn [orb]. cbv iota.
  assert ((String.length R <? 2)%nat
          || negb (Z.of_nat (String.length d) =? 2)%Z
          || negb (isChar "." (charAt R (String.length R - 1)))
          || negb (isChar "." (charAt R (String.length R - 2))) = true)
    as ->.
  { destruct (Z.eqb_spec (Z.of_nat (String.length d)) 2) as [E|_];
      [|now rewrite orb_true_r].
    assert (String.length d = 2) as E' by lia.
    pose proof (segment_not_dotdot d Hd E') as Hdd.
    rewrite HR, !isChar_charAt_app_r by lia.
    rewrite <- !orb_assoc. rewrite Hdd. now rewrite !orb_true_r. }
  destruct Hp as [[-> ->] | (Hi & -> & Hrel)].
  - (* the component was the only one *)
    simpl in HR. change (relPath []) with "".
    destruct (Nat.ltb_spec 2 (String.length R)).
    + assert (lastIndexOf R "/" = (-1)%Z) as ->
        by (rewrite HR; now apply lastIndexOf_from_noSlash).
      now exists 0%Z.
    + destruct (Nat.eqb_spec (String.length R) 0) as [E|_];
        [simpl in HRlen; lia|]. now exists 0%Z.
  - destruct (Nat.ltb_spec 2 (String.length R)) as [_|E];
      [|rewrite length_append in HRlen; simpl in HRlen; lia].
    rewrite HR, append_assoc, lastIndexOf_last by assumption.
    destruct (Z.eqb_spec (Z.of_nat (String.length (relPath init))) (-1))
      as [E|_]; [lia|].
    rewrite slice_prefix. eexists. reflexivity.
Qed.

(** [normalize] on an absolute path with one step up in it: the component
    before [..] is gone, the others stay. *)
Lemma normalize_parent (init rel : list string) (d : string) :
  Forall (fun s => isSegment s = true) init -> isSegment d = true ->
  Forall (fun s => isSegment s = true) rel ->
  normalize (absPath (init ++ [d]) +:+ "/.." +:+ absPath rel)
  = match (init ++ rel)%list with
    | [] => "/"
    | _ :: _ => absPath (init ++ rel)
    end.
Proof.
  intros Hinit Hd Hrel.
  assert (Forall (fun s => isSegment s = true) (init ++ [d])) as Hall
    by (apply Forall_app; split; [assumption | now constructor]).
  destruct (init ++ [d])%list as [|s segs] eqn:Hsegs;
    [now destruct init|].
  pose proof (List.Forall_inv Hall) as Hs;
      pose proof (List.Forall_inv_tail Hall) as Hsegs'.
  destruct (isSegment_spec s Hs) as (Hsne & Hsns & _).
  assert (List.last segs s = d) as Hlast.
  { destruct segs as [|s2 segs2].
    - destruct init as [|? [|? ?]]; simpl in Hsegs; now inversion Hsegs.
    - change (List.last (s2 :: segs2) s)
        with (List.last (s :: s2 :: segs2) s).
      rewrite <- Hsegs. apply List.last_last. }
  (* the state after [/s/.../d/..] *)
  assert (exists l,
            nloop false (absPath (s :: segs) +:+ "/..") ninit
            = {| res := relPath (s :: segs);
                 lastSegmentLength := l; seg := "..";
                 dots := 2; code := "." |} /\
            l = Z.of_nat (String.length d)) as (l & Hstate & ->).
  { eexists. split; [|reflexivity].
    change (absPath (s :: segs) +:+ "/..")
      with ("/" +:+ (s +:+ absPath segs) +:+ "/" +:+ "..").
    rewrite !append_assoc.
    change ("/" +:+ s +:+ absPath segs +:+ "/" +:+ "..")
      with (String "/" (s +:+ absPath segs +:+ "/" +:+ "..")).
    cbn [nloop]. change (nstep false ninit "/") with (afterSlash "" 0 "/").
    rewrite nloop_app, (nloop_component false s) by assumption.
    unfold afterSlash at 1. cbn [res lastSegmentLength seg dots code].
    change ("" +:+ s) with s.
    rewrite nloop_app.
    change (nloop false ("/" +:+ "..") ?st)
      with (nloop false ".." (nstep false st "/")).
    unfold nstep at 1. change (Ascii.eqb "/" "/") with true. cbv iota.
    rewrite nloop_absPath_state by assumption.
    rewrite Hlast. reflexivity. }
  destruct rel as [|s' rel].
  - (* nothing after [..] *)
    simpl absPath at 2. rewrite append_nil_r.
    rewrite List.app_nil_r.
    unfold normalize.
    assert (isChar "/" (charAt (absPath (s :: segs) +:+ "/..") 0) = true)
      as -> by reflexivity.
    change (negb true) with false.
    unfold normalizeString. rewrite Hstate.
    cbn [code]. change (Ascii.eqb "." "/") with false. cbv iota.
    rewrite <- Hsegs.
    destruct (onSeparator_dotdot init d "/" "." Hinit Hd) as (l & ->).
    cbn [res afterSlash].
    rewrite (charAt_last "/") by (rewrite Hsegs; discriminate).
    rewrite lastCode_app. change (lastCode _ "/..") with "."%char.
    cbn [isChar]. change (Ascii.eqb "." "/") with false.
    destruct (Nat.eqb_spec
                (String.length (absPath (init ++ [d]) +:+ "/..")) 0)
      as [E|_]; [rewrite length_append in E; simpl in E; lia|].
    destruct init as [|i0 init]; [reflexivity|].
    pose proof (List.Forall_inv Hinit) as Hi0.
    destruct (isSegment_spec i0 Hi0) as (Hi0ne & _).
    destruct (Nat.eqb_spec (String.length (relPath (i0 :: init))) 0)
      as [E|_]; [|reflexivity].
    simpl in E. rewrite length_append in E.
    destruct i0; simpl in E; [congruence|lia].
  - (* components after [..] *)
    pose proof (List.Forall_inv Hrel) as Hs';
      pose proof (List.Forall_inv_tail Hrel) as Hrel'.
    destruct (isSegment_spec s' Hs') as (Hs'ne & Hs'ns & _).
    assert ((init ++ s' :: rel)%list <> []) as Hnonnil by (now destruct init).
    unfold normalize.
    assert (isChar "/" (charAt (absPath (s :: segs) +:+ "/.."
                                +:+ absPath (s' :: rel)) 0) = true)
      as -> by reflexivity.
    change (negb true) with false.
    assert (normalizeString
              (absPath (s :: segs) +:+ "/.." +:+ absPath (s' :: rel)) false
            = relPath (init ++ s' :: rel)) as ->.
    { unfold normalizeString.
      rewrite nloop_code, !lastCode_app.
      rewrite lastCode_absPath by (auto; reflexivity).
      rewrite <- append_assoc, nloop_app, Hstate.
      change (absPath (s' :: rel)) with ("/" +:+ s' +:+ absPath rel).
      change (nloop false ("/" +:+ s' +:+ absPath rel) ?st)
        with (nloop false (s' +:+ absPath rel) (nstep false st "/")).
      unfold nstep at 1. change (Ascii.eqb "/" "/") with true. cbv iota.
      rewrite <- Hsegs.
      destruct (onSeparator_dotdot init d "/" "." Hinit Hd) as (l & ->).
      rewrite nloop_app, (nloop_component false s') by assumption.
      unfold afterSlash at 1. cbn [res lastSegmentLength seg dots code].
      change ("" +:+ s') with s'.
      rewrite nloop_absPath by assumption.
      destruct init as [|i0 init]; [reflexivity|].
      pose proof (List.Forall_inv Hinit) as Hi0.
      destruct (isSegment_spec i0 Hi0) as (Hi0ne & _).
      destruct (Nat.ltb_spec 0 (String.length (relPath (i0 :: init))))
        as [_|E].
      - simpl. rewrite absPath_app. simpl. now rewrite !append_assoc.
      - simpl in E. rewrite length_append in E.
        destruct i0; simpl in E; [congruence|lia]. }
    rewrite (charAt_last "/") by (discriminate).
    rewrite !lastCode_app. cbn [isChar].
    rewrite lastCode_absPath by (auto; reflexivity).
    destruct (Nat.eqb_spec
                (String.length (absPath (s :: segs) +:+ "/.."
                                +:+ absPath (s' :: rel))) 0)
      as [E|_]; [rewrite !length_append in E; simpl in E; lia|].
    destruct (init ++ s' :: rel)%list as [|x xs] eqn:Hx; [congruence|].
    destruct (Nat.eqb_spec (String.length (relPath (x :: xs))) 0)
      as [E|_]; [|reflexivity].
    assert (Forall (fun s => isSegment s = true) (x :: xs)) as Hxs
      by (rewrite <- Hx; apply Forall_app; split; assumption).
    pose proof (List.Forall_inv Hxs) as Hx0.
    destruct (isSegment_spec x Hx0) as (Hxne & _).
    simpl in E. rewrite length_append in E.
    destruct x; simpl in E; [congruence|lia].
Qed.

End ParentFacts.

(** ** electron/main.js: where things are, and how a conversion ends *)

Module MainProcessFacts.

Import Js NodePath PathShape PathParts StringFacts NodePathFacts.
Import Main MainProcess ParentFacts.

(** [path.join(__dirname, '../' + rel)]: the components [rel] beside the
    directory of the script. *)
Lemma join_parent (init rel : list string) (d r : string) :
  Forall (fun s => isSegment s = true) init -> isSegment d = true ->
  isSegment r = true -> Forall (fun s => isSegment s = true) rel ->
  join [absPath (init ++ [d]); "../" +:+ relPath (r :: rel)]
  = absPath (init ++ r :: rel).
Proof.
  intros Hinit Hd Hr Hrel.
  rewrite join_two.
  - replace (absPath (init ++ [d]) +:+ "/" +:+ "../" +:+ relPath (r :: rel))
      with (absPath (init ++ [d]) +:+ "/.." +:+ absPath (r :: rel))
      by reflexivity.
    rewrite normalize_parent by (auto; now constructor).
    now destruct init.
  - rewrite absPath_app. destruct (absPath init); discriminate.
  - discriminate.
Qed.

Lemma join_child (segs : list string) (s x : string) :
  Forall (fun s => isSegment s = true) (s :: segs) -> isSegment x = true ->
  join [absPath (s :: segs); x] = absPath (s :: segs ++ [x]).
Proof.
  intros Hsegs Hx.
  rewrite join_two.
  - replace (absPath (s :: segs) +:+ "/" +:+ x)
      with ("/" +:+ s +:+ absPath (segs ++ [x])).
    + apply normalize_absPath; [now left | now inversion Hsegs |].
      apply Forall_app; split; [now inversion Hsegs | now constructor].
    + rewrite absPath_app. simpl. now rewrite append_nil_r, !append_assoc.
  - discriminate.
  - apply isSegment_spec in Hx. tauto.
Qed.

(** Every file of a directory is [stem.md] for a non-empty [stem], and the
    output has [stem.docx], or it is not, and the output has [.docx] after
    the whole name. *)
Lemma outputFile_cases (dirs : list string) (name : string) :
  Forall (fun s => isSegment s = true) dirs ->
  noSlash name = true -> name <> "" ->
  (exists stem, stem <> "" /\ noSlash stem = true /\
     name = stem +:+ ".md" /\
     outputFile (absPath dirs +:+ "/" +:+ name)
       = absPath dirs +:+ "/" +:+ stem +:+ ".docx") \/
  ((forall stem, stem <> "" -> name <> stem +:+ ".md") /\
   outputFile (absPath dirs +:+ "/" +:+ name)
     = absPath dirs +:+ "/" +:+ name +:+ ".docx").
Proof.
  intros Hdirs Hname Hne.
  assert ((exists stem, stem <> "" /\ name = stem +:+ ".md") \/
          (forall stem, stem <> "" -> name <> stem +:+ ".md")) as [H|H].
  { destruct (Js.endsWith name ".md") eqn:E.
    - apply endsWith_true in E as ([|c p] & ->).
      + right. intros stem Hs E. apply (f_equal String.length) in E.
        rewrite !length_append in E.
        destruct stem; simpl in *; [congruence|lia].
      + left. exists (String c p). split; [discriminate | reflexivity].
    - right. intros stem _ ->. apply endsWith_false in E. apply E.
      now exists stem. }
  - destruct H as (stem & Hs & ->). left. exists stem.
    rewrite noSlash_app in Hname. apply andb_true_iff in Hname as [Hst _].
    repeat split; try assumption.
    apply MainFacts.outputFile_in_dir; auto.
    + now rewrite noSlash_app, Hst.
    + now apply basename_md_stem.
  - right. split; [assumption|].
    apply MainFacts.outputFile_in_dir; auto. now apply basename_md_other.
Qed.

Lemma dirname_in_dir (dirs : list string) (x : string) :
  Forall (fun s => isSegment s = true) dirs ->
  noSlash x = true -> x <> "" ->
  dirname (absPath dirs +:+ "/" +:+ x)
  = match dirs with [] => "/" | _ :: _ => absPath dirs end.
Proof.
  intros Hdirs Hx Hne. destruct Hdirs as [|d ds Hd Hds].
  - now apply dirname_root_file.
  - apply dirname_file; try assumption.
    destruct (isSegment_spec d Hd) as (Hdne & _).
    simpl. rewrite length_append. destruct d; simpl; [congruence|lia].
Qed.

(** X20. The converter is started beside the directory of [main.js]: with
    [__dirname] the normalized absolute path of a directory [d], the
    process runs in [python] next to [d], with the interpreter of [venv]
    next to [d] when that file exists and [python3.14] otherwise, on the
    module [md2docx] with the input path, the output path and the settings
    as JSON. *)
Theorem converter_runs_beside_app (env : Env) (init : list string)
  (d filePath : string) (settings : gmap string Value) :
  Forall (fun s => isSegment s = true) init -> isSegment d = true ->
  __dirname env = absPath (init ++ [d]) ->
  let venv := absPath (init ++ ["venv"; "bin"; "python"]) in
  pythonProcess env filePath settings
  = spawn env (if existsSync env venv then venv else "python3.14")
      ["-m"; "md2docx"; filePath; outputFile filePath; "--settings";
       stringify env settings]
      (absPath (init ++ ["python"])).
Proof.
  intros Hinit Hd Hdir venv.
  unfold pythonProcess, pythonCmd, args, pythonDir, venvPython.
  rewrite Hdir.
  change "../python" with ("../" +:+ relPath ["python"]).
  change "../venv/bin/python" with ("../" +:+ relPath ["venv"; "bin"; "python"]).
  rewrite !join_parent by (auto; repeat constructor).
  reflexivity.
Qed.

Lemma converter_runs_beside_app_witness :
  let env := {| __dirname := "/opt/app/electron";
                existsSync := fun p => String.eqb p "/opt/app/venv/bin/python";
                stringify := fun _ => "{}";
                spawn := fun cmd _ cwd => mkExit (Some 0%Z) cmd cwd |} in
  pythonProcess env "/docs/a.md" Settings.initialSettings
  = mkExit (Some 0%Z) "/opt/app/venv/bin/python" "/opt/app/python".
Proof.
  apply (converter_runs_beside_app
           {| __dirname := "/opt/app/electron";
              existsSync := fun p => String.eqb p "/opt/app/venv/bin/python";
              stringify := fun _ => "{}";
              spawn := fun cmd _ cwd => mkExit (Some 0%Z) cmd cwd |}
           ["opt"; "app"] "electron" "/docs/a.md" Settings.initialSettings).
  - repeat constructor.
  - reflexivity.
  - reflexivity.
Defined.

(** X21. What the window loads: the preload script is [preload.js] in the
    directory of [main.js], and outside development the page is
    [dist/index.html] next to that directory, as a [file://] address; in
    development it is the local server, whatever the directory. *)
Theorem window_loads_from_app (env : Env) (init : list string) (d : string) :
  Forall (fun s => isSegment s = true) init -> isSegment d = true ->
  __dirname env = absPath (init ++ [d]) ->
  preload env = absPath (init ++ [d; "preload.js"]) /\
  startUrl env false = "file://" +:+ absPath (init ++ ["dist"; "index.html"]) /\
  startUrl env true = "http://localhost:5173".
Proof.
  intros Hinit Hd Hdir. unfold preload, startUrl. rewrite Hdir.
  repeat split.
  - assert (Forall (fun s => isSegment s = true) (init ++ [d])) as Hall
      by (apply Forall_app; split; [assumption | now constructor]).
    destruct (init ++ [d])%list as [|s segs] eqn:E; [now destruct init|].
    rewrite join_child by (assumption || reflexivity).
    change (s :: segs ++ ["preload.js"])%list
      with ((s :: segs) ++ ["preload.js"])%list.
    rewrite <- E, <- List.app_assoc. reflexivity.
  - change "../dist/index.html" with ("../" +:+ relPath ["dist"; "index.html"]).
    now rewrite join_parent by (auto; repeat constructor).
Qed.

Lemma window_loads_from_app_witness :
  let env := {| __dirname := "/opt/app/electron";
                existsSync := fun _ => false;
                stringify := fun _ => "{}";
                spawn := fun _ _ _ => mkExit None "" "" |} in
  preload env = "/opt/app/electron/preload.js" /\
  startUrl env false = "file:///opt/app/dist/index.html" /\
  startUrl env true = "http://localhost:5173".
Proof.
  apply (window_loads_from_app
           {| __dirname := "/opt/app/electron";
              existsSync := fun _ => false;
              stringify := fun _ => "{}";
              spawn := fun _ _ _ => mkExit None "" "" |}
           ["opt"; "app"] "electron").
  - repeat constructor.
  - reflexivity.
  - reflexivity.
Defined.

(** X22. The handler resolves exactly when the converter exits with code
    0, and then with the output path; any other end, a converter killed by
    a signal included, rejects with what the converter wrote to its error
    output after a fixed prefix.  The standard output plays no part. *)
Theorem conversion_resolves_iff_exit_zero (env : Env) (filePath : string)
  (settings : gmap string Value) :
  let exit := pythonProcess env filePath settings in
  (exitCode exit = Some 0%Z <->
   convertFile env filePath settings = Resolved (outputFile filePath)) /\
  (exitCode exit <> Some 0%Z <->
   convertFile env filePath settings
     = Rejected ("Conversion failed: " +:+ stderr exit)).
Proof.
  intros exit. unfold convertFile.
  change (spawn env _ _ _) with exit.
  destruct (exitCode exit) as [[| |]|]; repeat split;
    intros; try reflexivity; try discriminate; congruence.
Qed.

(** X23. The output is written beside the input: for every file of a
    normalized absolute directory, whatever its name, the output path has
    the directory of the input path. *)
Theorem output_beside_input (dirs : list string) (name : string) :
  Forall (fun s => isSegment s = true) dirs ->
  noSlash name = true -> name <> "" ->
  dirname (outputFile (absPath dirs +:+ "/" +:+ name))
  = dirname (absPath dirs +:+ "/" +:+ name).
Proof.
  intros Hdirs Hname Hne.
  rewrite (dirname_in_dir dirs name) by assumption.
  destruct (outputFile_cases dirs name Hdirs Hname Hne)
    as [(stem & Hs & Hns & _ & ->) | (_ & ->)];
    apply dirname_in_dir; auto;
    try (now rewrite noSlash_app, ?Hns, ?Hname);
    intros E; apply (f_equal String.length) in E;
    rewrite length_append in E; simpl in E; lia.
Qed.

Lemma output_beside_input_witness :
  dirname (outputFile (absPath ["home"; "docs"] +:+ "/" +:+ "notes.txt"))
  = dirname (absPath ["home"; "docs"] +:+ "/" +:+ "notes.txt").
Proof.
  apply (output_beside_input ["home"; "docs"] "notes.txt").
  - repeat constructor.
  - reflexivity.
  - discriminate.
Defined.

(** X24. The converter is never told to write over its input: the output
    path differs from the input path. *)
Theorem output_is_not_input (dirs : list string) (name : string) :
  Forall (fun s => isSegment s = true) dirs ->
  noSlash name = true -> name <> "" ->
  outputFile (absPath dirs +:+ "/" +:+ name) <> absPath dirs +:+ "/" +:+ name.
Proof.
  intros Hdirs Hname Hne.
  destruct (outputFile_cases dirs name Hdirs Hname Hne)
    as [(stem & Hs & Hns & -> & ->) | (_ & ->)]; intros E.
  - apply (f_equal String.length) in E.
    rewrite !length_append in E. simpl in E. lia.
  - apply (f_equal String.length) in E.
    rewrite !length_append in E. simpl in E. lia.
Qed.

Lemma output_is_not_input_witness :
  outputFile (absPath ["docs"] +:+ "/" +:+ "a.docx")
  <> absPath ["docs"] +:+ "/" +:+ "a.docx".
Proof.
  apply (output_is_not_input ["docs"] "a.docx").
  - repeat constructor.
  - reflexivity.
  - discriminate.
Defined.

(** X25. Two inputs can share an output: in one directory, the file
    [stem.md] and the file [stem] are both converted into [stem.docx]. *)
Theorem outputs_collide (dirs : list string) (stem : string) :
  Forall (fun s => isSegment s = true) dirs ->
  noSlash stem = true -> stem <> "" ->
  (forall t, t <> "" -> stem <> t +:+ ".md") ->
  outputFile (absPath dirs +:+ "/" +:+ stem +:+ ".md")
  = outputFile (absPath dirs +:+ "/" +:+ stem) /\
  absPath dirs +:+ "/" +:+ stem +:+ ".md" <> absPath dirs +:+ "/" +:+ stem.
Proof.
  intros Hdirs Hstem Hne Hother. split.
  - rewrite (MainFacts.outputFile_in_dir dirs (stem +:+ ".md") stem); auto.
    + rewrite (MainFacts.outputFile_in_dir dirs stem stem); auto.
      now apply basename_md_other.
    + now rewrite noSlash_app, Hstem.
    + destruct stem; discriminate.
    + now apply basename_md_stem.
  - intros E. apply (f_equal String.length) in E.
    rewrite !length_append in E. simpl in E. lia.
Qed.

Lemma outputs_collide_witness :
  outputFile (absPath ["docs"] +:+ "/" +:+ "notes" +:+ ".md")
  = outputFile (absPath ["docs"] +:+ "/" +:+ "notes") /\
  absPath ["docs"] +:+ "/" +:+ "notes" +:+ ".md"
  <> absPath ["docs"] +:+ "/" +:+ "notes".
Proof.
  apply (outputs_collide ["docs"] "notes").
  - repeat constructor.
  - reflexivity.
  - discriminate.
  - intros t _ E.
    assert (Js.endsWith "notes" ".md" = false) as H by reflexivity.
    apply endsWith_false in H. apply H. now exists t.
Defined.

End MainProcessFacts.

(** ** The window as a whole: invariants *)

Module UiFacts.

Import Dom Bridge Async Ui.

(** With a file selected [handleConvert] is three updates and the [await]
    with [afterAwait] after it. *)
Lemma handleConvert_await (a : App.state) (f : File) :
  App.file a = Some f ->
  App.handleConvert a =
    Do (App.SetIsConverting true) (Do (App.SetError None)
      (Do (App.SetOutputFile None)
         (Await (path f, App.settings a) afterAwait))).
Proof. intros H. unfold App.handleConvert. rewrite H. reflexivity. Qed.

Lemma onConvert_selected (st : state) (f : File) :
  App.file (app st) = Some f ->
  onConvert st =
    {| app := {| App.file := App.file (app st);
                 App.settings := App.settings (app st);
                 App.outputFile := None; App.isConverting := true;
                 App.error := None |};
       isDragging := isDragging st;
       pending := pending st ++ [((path f, App.settings (app st)),
                                  afterAwait)] |}.
Proof.
  intros H. unfold onConvert. rewrite (handleConvert_await _ f H).
  reflexivity.
Qed.

Lemma onConvert_no_file (st : state) :
  App.file (app st) = None -> onConvert st = st.
Proof.
  intros H. unfold onConvert, App.handleConvert. rewrite H. simpl.
  now destruct st.
Qed.

(** The continuation of [handleConvert] finishes without a further
    request. *)
Lemma suspend_afterAwait (outcome : Outcome) (a : App.state) :
  suspend App.apply (afterAwait outcome) a =
    ({| App.file := App.file a; App.settings := App.settings a;
        App.outputFile :=
          match outcome with
          | Resolve result => Some (outputPath result)
          | Reject _ => App.outputFile a
          end;
        App.isConverting := false;
        App.error :=
          match outcome with
          | Resolve _ => App.error a
          | Reject err =>
              Some (Js.or_else (message err) App.fallbackMessage)
          end |}, None).
Proof. destruct outcome; reflexivity. Qed.

Lemma settle_waiting (n : nat) (outcome : Outcome) (st : state) :
  waiting st ->
  settle n outcome st = st \/
  (n = 0 /\
   settle n outcome st =
     {| app := fst (suspend App.apply (afterAwait outcome) (app st));
        isDragging := isDragging st; pending := [] |}).
Proof.
  intros ([q Hp] & _). unfold settle. rewrite Hp.
  destruct n as [|n]; [right | left; reflexivity].
  split; [reflexivity|]. simpl. rewrite suspend_afterAwait. reflexivity.
Qed.

(** Every event keeps the window idle or waiting. *)
Lemma step_inv (e : event) (st : state) :
  idle st \/ waiting st -> idle (step e st) \/ waiting (step e st).
Proof.
  intros H.
  assert (forall h, idle (uploader h st) \/ waiting (uploader h st)) as Hu.
  { intros h. destruct H as [(Hp & Hc & He) | (Hp & Hc & He & Ho)];
      [left | right]; unfold idle, waiting, uploader; simpl; auto. }
  assert (forall a,
            App.isConverting a = App.isConverting (app st) ->
            App.error a = None \/ App.error a = App.error (app st) ->
            App.outputFile a = App.outputFile (app st) ->
            let st' := {| app := a; isDragging := isDragging st;
                          pending := pending st |} in
            idle st' \/ waiting st') as Hsame.
  { intros a Hc He Ho.
    destruct H as [(Hp & Hc' & He') | (Hp & Hc' & He' & Ho')];
      [left | right]; unfold idle, waiting; simpl;
      rewrite Hc, Ho; repeat split; auto.
    - destruct He as [-> | ->]; auto.
    - destruct He as [-> | ->]; auto. }
  destruct e as [ | | files | files | | key value | | n outcome | ];
    try apply Hu.
  - (* Change *) apply Hsame; simpl; auto.
  - (* ClickConvert *)
    simpl. unfold convertDisabled.
    destruct (App.file (app st)) as [f|] eqn:Hf; [|auto].
    destruct (App.isConverting (app st)) eqn:Hc; [auto|].
    destruct H as [(Hp & _ & _) | (_ & Hc' & _)]; [|congruence].
    right. rewrite (onConvert_selected st f Hf), Hp. unfold waiting; simpl.
    eauto.
  - (* Settle *)
    simpl. destruct H as [(Hp & Hc & He) | Hw].
    + left. unfold settle. rewrite Hp. rewrite lookup_nil.
      unfold idle; auto.
    + destruct (settle_waiting n outcome st Hw) as [-> | [_ ->]]; [auto|].
      left. destruct Hw as (_ & _ & He & Ho).
      rewrite suspend_afterAwait. unfold idle; simpl.
      destruct outcome; auto.
  - (* Dismiss *) apply Hsame; simpl; auto.
Qed.

Lemma run_inv (events : list event) (st : state) :
  idle st \/ waiting st -> idle (run events st) \/ waiting (run events st).
Proof.
  revert st; induction events as [|e events IH]; intros st H; simpl; auto.
  apply IH, step_inv, H.
Qed.

Lemma initial_idle : idle initial.
Proof. unfold idle; simpl; auto. Qed.

(** X1. At most one conversion is in flight, whatever the user does: after
    any events from the initial window at most one request is pending, and
    the spinner is on exactly while one is. *)
Theorem single_conversion_in_flight (events : list event) :
  let st := run events initial in
  length (pending st) <= 1 /\
  (App.isConverting (app st) = true <-> pending st <> []).
Proof.
  destruct (run_inv events initial (or_introl initial_idle))
    as [(Hp & Hc & _) | ([q Hp] & Hc & _)]; simpl; rewrite Hp, Hc; simpl.
  - split; [lia|]. split; [discriminate | congruence].
  - split; [lia|]. split; [discriminate | reflexivity].
Qed.

(** X2. The error notification and the result are never both there, and
    while a conversion runs neither is: after any events from the initial
    window, the error or the output path is unset, and both are while
    [isConverting]. *)
Theorem error_and_output_exclusive (events : list event) :
  let a := app (run events initial) in
  (App.error a = None \/ App.outputFile a = None) /\
  (App.isConverting a = true ->
   App.error a = None /\ App.outputFile a = None).
Proof.
  destruct (run_inv events initial (or_introl initial_idle))
    as [(Hp & Hc & He) | (_ & Hc & He & Ho)]; simpl.
  - split; [exact He|]. congruence.
  - auto.
Qed.

Lemma error_and_output_exclusive_witness :
  let a := app (run [Drop [mkFile "a.md" 1 "/a.md"]; ClickConvert] initial) in
  App.error a = None /\ App.outputFile a = None.
Proof.
  apply (proj2 (error_and_output_exclusive
                  [Drop [mkFile "a.md" 1 "/a.md"]; ClickConvert])).
  reflexivity.
Defined.

(** X3. The events of the file selector and of the settings touch neither
    the conversion state nor a request in flight: the spinner, the error,
    the output path and the pending requests (with the path and the
    settings they were made with) are as before. *)
Theorem input_events_keep_conversion (e : event) (st : state) :
  isInput e = true ->
  App.conversionState (app (step e st)) = App.conversionState (app st) /\
  App.outputFile (app (step e st)) = App.outputFile (app st) /\
  App.error (app (step e st)) = App.error (app st) /\
  pending (step e st) = pending st.
Proof.
  destruct e; simpl; intros H; try discriminate;
    unfold App.conversionState; simpl; auto.
Qed.

Lemma input_events_keep_conversion_witness :
  let st := {| app := {| App.file := Some (mkFile "a.md" 1 "/a.md");
                         App.settings := Settings.initialSettings;
                         App.outputFile := Some "/a.docx";
                         App.isConverting := false; App.error := None |};
               isDragging := false; pending := [] |} in
  App.conversionState (app (step Remove st)) = Succeeded "/a.docx".
Proof.
  intros st.
  rewrite (proj1 (input_events_keep_conversion Remove st eq_refl)).
  reflexivity.
Defined.

(** The selection of a window in which nothing was ever browsed. *)
Lemma step_keeps_md (e : event) (st : state) :
  isBrowse e = false ->
  idle st \/ waiting st ->
  (forall f, App.file (app st) = Some f -> Js.endsWith (name f) ".md" = true)
  ->
  forall f, App.file (app (step e st)) = Some f ->
            Js.endsWith (name f) ".md" = true.
Proof.
  intros He Hinv H f.
  destruct e as [ | | files | files | | key value | | n outcome | ];
    simpl in *; try discriminate; auto.
  - (* Drop *)
    unfold FileUploader.handleDrop; simpl.
    destruct (FileUploader.accepts (head files)) eqn:Ha; simpl; [|auto].
    destruct (head files) as [g|]; simpl in *; [|discriminate].
    intros [= <-]. exact Ha.
  - (* ClickConvert *)
    destruct (convertDisabled (app st)); [auto|].
    destruct (App.file (app st)) as [g|] eqn:Hg.
    + rewrite (onConvert_selected st g Hg). simpl. rewrite Hg.
      intros [= <-]. auto.
    + rewrite (onConvert_no_file st Hg). rewrite Hg. discriminate.
  - (* Settle *)
    destruct Hinv as [(Hp & _) | Hw].
    + unfold settle. rewrite Hp, lookup_nil. auto.
    + destruct (settle_waiting n outcome st Hw) as [-> | [_ ->]]; [auto|].
      rewrite suspend_afterAwait. simpl. auto.
Qed.

(** X4. A window in which files are only ever dropped, never browsed,
    selects none but [.md] files: after any such events from the initial
    window, the name of the selected file, if there is one, ends in
    [.md]. *)
Theorem dropped_selection_is_md (events : list event) (f : File) :
  forallb (fun e => negb (isBrowse e)) events = true ->
  App.file (app (run events initial)) = Some f ->
  exists stem, name f = stem +:+ ".md".
Proof.
  intros Hev Hf. apply StringFacts.endsWith_true. revert f Hf.
  assert (idle initial \/ waiting initial) as Hinv
    by (left; apply initial_idle).
  assert (forall f, App.file (app initial) = Some f ->
                    Js.endsWith (name f) ".md" = true) as Hmd
    by discriminate.
  revert Hinv Hmd. generalize initial as st.
  induction events as [|e events IH]; intros st Hinv Hmd; simpl in *.
  - exact Hmd.
  - apply andb_true_iff in Hev as [He Hev]. apply negb_true_iff in He.
    apply (IH Hev).
    + now apply step_inv.
    + now apply step_keeps_md.
Qed.

Lemma dropped_selection_is_md_witness :
  exists stem, "x.md" = stem +:+ ".md".
Proof.
  apply (dropped_selection_is_md
           [DragOver; Drop [mkFile "x.md" 10 "/docs/x.md"];
            Drop [mkFile "y.txt" 2 "/docs/y.txt"]; ClickConvert]
           (mkFile "x.md" 10 "/docs/x.md")); reflexivity.
Defined.

(** The handler, called with a file selected, adds a request. *)
Lemma onConvert_pending (st : state) (f : File) :
  App.file (app st) = Some f ->
  pending (onConvert st)
    = (pending st ++ [((path f, App.settings (app st)), afterAwait)])%list.
Proof. intros H. now rewrite (onConvert_selected st f H). Qed.

(** X5. [handleConvert] itself has no guard against a conversion in
    flight: called with a file selected it starts a request even while
    [isConverting], so that only the disabled button keeps conversions from
    overlapping. *)
Theorem handler_has_no_in_flight_guard (st : state) (f : File) :
  App.file (app st) = Some f ->
  length (pending (onConvert st)) = S (length (pending st)) /\
  (App.isConverting (app st) = true -> step ClickConvert st = st).
Proof.
  intros H. split.
  - rewrite (onConvert_pending st f H), length_app. simpl. lia.
  - intros Hc. simpl. unfold convertDisabled. now rewrite H, Hc.
Qed.

Lemma handler_has_no_in_flight_guard_witness :
  let a := {| App.file := Some (mkFile "a.md" 1 "/a.md");
              App.settings := Settings.initialSettings;
              App.outputFile := None; App.isConverting := true;
              App.error := None |} in
  let st := {| app := a; isDragging := false;
               pending := [(("/a.md", Settings.initialSettings),
                            afterAwait)] |} in
  length (pending (onConvert st)) = 2.
Proof.
  intros a st.
  apply (proj1 (handler_has_no_in_flight_guard st (mkFile "a.md" 1 "/a.md")
                  eq_refl)).
Defined.

(** Input events leave a waiting window waiting for the same request. *)
Lemma run_inputs_pending (events : list event) (st : state) :
  forallb isInput events = true ->
  pending (run events st) = pending st /\
  App.isConverting (app (run events st)) = App.isConverting (app st) /\
  App.error (app (run events st)) = App.error (app st) /\
  App.outputFile (app (run events st)) = App.outputFile (app st).
Proof.
  revert st; induction events as [|e events IH]; intros st H; simpl in *;
    [auto|].
  apply andb_true_iff in H as [He H].
  destruct (IH (step e st) H) as (-> & -> & -> & ->).
  destruct e; simpl in *; try discriminate; auto.
Qed.

(** X6. What is converted is the file and the settings of the click: when
    the user clicks convert and then changes the selection or the settings
    while the conversion runs, the request in flight is still the one for
    the path and the settings of the click, and when it resolves its output
    path is stored and shown all the same. *)
Theorem conversion_uses_click_snapshot (st : state) (f : File)
  (inputs : list event) (result : ConvertResult) :
  App.file (app st) = Some f ->
  App.isConverting (app st) = false ->
  pending st = [] ->
  forallb isInput inputs = true ->
  outputPath result <> "" ->
  let st1 := run (ClickConvert :: inputs) st in
  pending st1 = [((path f, App.settings (app st)), afterAwait)] /\
  App.conversionState (app st1) = Converting /\
  App.conversionState (app (step (Settle 0 (Resolve result)) st1))
    = Succeeded (outputPath result).
Proof.
  intros Hf Hc Hp Hin Hne. simpl.
  unfold convertDisabled. rewrite Hf, Hc.
  rewrite (onConvert_selected st f Hf), Hp. simpl app.
  match goal with
  | |- context [run inputs ?s] =>
      destruct (run_inputs_pending inputs s Hin) as (Hp1 & Hc1 & He1 & Ho1)
  end.
  simpl in Hp1, Hc1, He1, Ho1.
  split; [exact Hp1|]. split.
  - unfold App.conversionState. now rewrite Hc1.
  - unfold settle. rewrite Hp1.
    change ([((path f, App.settings (app st)), afterAwait)] !! 0)
      with (Some ((path f, App.settings (app st)), afterAwait)).
    cbv iota beta. rewrite suspend_afterAwait.
    unfold App.conversionState, Js.shown. simpl. rewrite He1. simpl.
    now rewrite (AppFacts.truthy_true _ Hne).
Qed.

Lemma conversion_uses_click_snapshot_witness :
  let f := mkFile "a.md" 1 "/docs/a.md" in
  let st := {| app := {| App.file := Some f;
                         App.settings := Settings.initialSettings;
                         App.outputFile := None; App.isConverting := false;
                         App.error := None |};
               isDragging := false; pending := [] |} in
  let st1 := run [ClickConvert; Remove; Change "fontSize" "12"] st in
  pending st1 = [(("/docs/a.md", Settings.initialSettings), afterAwait)] /\
  App.conversionState (app st1) = Converting /\
  App.conversionState
    (app (step (Settle 0 (Resolve (mkResult "/docs/a.docx"))) st1))
    = Succeeded "/docs/a.docx".
Proof.
  intros f st.
  apply (conversion_uses_click_snapshot st f [Remove; Change "fontSize" "12"]
           (mkResult "/docs/a.docx")); try reflexivity.
  discriminate.
Defined.

End UiFacts.

(** ** The orchestrator: what a run leaves behind *)

Module AppRunFacts.

Import Dom Bridge Async App.

(** The state a run ends in, with a file selected. *)
Lemma convert_final (bridge : Request -> Outcome) (st : state) (f : File) :
  file st = Some f ->
  fst (convert bridge st) =
    match bridge (path f, settings st) with
    | Resolve result =>
        {| file := file st; settings := settings st;
           outputFile := Some (outputPath result);
           isConverting := false; error := None |}
    | Reject err =>
        {| file := file st; settings := settings st; outputFile := None;
           isConverting := false;
           error := Some (Js.or_else (message err) fallbackMessage) |}
    end.
Proof.
  intros Hf. unfold convert. rewrite (AppFacts.handleConvert_selected st f Hf).
  simpl. destruct (bridge (path f, settings st)); reflexivity.
Qed.



(** X8. The result of a conversion does not depend on earlier ones: with
    the same file and settings and the same answer of the bridge, the run
    ends in the same state whatever error, output path or spinner were
    there before; in particular nothing of a previous result survives. *)
Theorem convert_forgets_history (bridge : Request -> Outcome)
  (st st' : state) (f : File) :
  file st = Some f -> file st' = Some f -> settings st = settings st' ->
  fst (convert bridge st) = fst (convert bridge st').
Proof.
  intros Hf Hf' Hs.
  rewrite (convert_final bridge st f Hf), (convert_final bridge st' f Hf').
  rewrite Hf, Hf', Hs. reflexivity.
Qed.

Lemma convert_forgets_history_witness :
  let f := mkFile "a.md" 1 "/docs/a.md" in
  let bridge := fun _ : Request => Reject (mkError (Some "disk full")) in
  fst (convert bridge
         {| file := Some f; settings := Settings.initialSettings;
            outputFile := Some "/docs/a.docx"; isConverting := false;
            error := None |})
  = fst (convert bridge
           {| file := Some f; settings := Settings.initialSettings;
              outputFile := None; isConverting := true;
              error := Some "earlier" |}).
Proof.
  intros f bridge.
  apply (convert_forgets_history bridge _ _ f); reflexivity.
Defined.

(** X9. Dismissing the notification after a failed conversion brings the
    component back to Idle, with the same file and settings; a new attempt
    is possible at once. *)
Theorem dismiss_after_failure (bridge : Request -> Outcome) (st : state)
  (f : File) (err : JsError) :
  file st = Some f ->
  bridge (path f, settings st) = Reject err ->
  let st' := dismissError (fst (convert bridge st)) in
  conversionState st' = Idle /\ file st' = Some f /\
  settings st' = settings st /\ Ui.convertDisabled st' = false.
Proof.
  intros Hf Hb. rewrite (convert_final bridge st f Hf), Hb.
  unfold conversionState, Ui.convertDisabled; simpl. rewrite Hf. auto.
Qed.

Lemma dismiss_after_failure_witness :
  let f := mkFile "a.md" 1 "/docs/a.md" in
  let st := {| file := Some f; settings := Settings.initialSettings;
               outputFile := None; isConverting := false; error := None |} in
  let st' := dismissError
               (fst (convert (fun _ => Reject (mkError None)) st)) in
  conversionState st' = Idle /\ file st' = Some f /\
  settings st' = settings st /\ Ui.convertDisabled st' = false.
Proof.
  intros f st.
  apply (dismiss_after_failure (fun _ => Reject (mkError None)) st f
           (mkError None)); reflexivity.
Defined.

(** X10. The revision without the error slot keeps a stale result: when a
    conversion is rejected after an earlier one succeeded, the component
    ends in the Succeeded state with the path of the earlier output. *)
Theorem noError_stale_success (bridge : Request -> Outcome)
  (st : AppNoError.state) (f : File) (err : JsError) (p : string) :
  AppNoError.file st = Some f ->
  AppNoError.outputFile st = Some p -> p <> "" ->
  bridge (path f, AppNoError.settings st) = Reject err ->
  AppNoError.conversionState (fst (AppNoError.convert bridge st))
    = Succeeded p.
Proof.
  destruct st as [fl se o c]. simpl. intros -> -> Hp Hb.
  unfold AppNoError.convert, AppNoError.handleConvert. simpl.
  rewrite Hb. unfold AppNoError.conversionState, Js.shown. simpl.
  now rewrite (AppFacts.truthy_true p Hp).
Qed.

Lemma noError_stale_success_witness :
  AppNoError.conversionState
    (fst (AppNoError.convert
            (fun _ => Reject (mkError (Some "disk full")))
            (AppNoError.mkState (Some (mkFile "b.md" 1 "/docs/b.md"))
               Settings.initialSettings (Some "/docs/a.docx") false)))
  = Succeeded "/docs/a.docx".
Proof.
  apply (noError_stale_success
           (fun _ => Reject (mkError (Some "disk full")))
           (AppNoError.mkState (Some (mkFile "b.md" 1 "/docs/b.md"))
              Settings.initialSettings (Some "/docs/a.docx") false)
           (mkFile "b.md" 1 "/docs/b.md") (mkError (Some "disk full"))
           "/docs/a.docx"); try reflexivity.
  discriminate.
Defined.

End AppRunFacts.

(** ** The result presenter and the way to the host *)

Module ConverterFacts.

Import Converter.

(** X11. The life of the "copied" indicator: copying a path, with no
    earlier timer pending, puts the path on the clipboard and turns the
    indicator on; when the timer of two seconds fires the indicator is off
    again, the path is still on the clipboard and no timer is left. *)
Theorem copied_indicator_reverts (p : string) (w : world) :
  p <> "" -> timers w = [] ->
  let w1 := handleCopyPath (Some p) w in
  copied w1 = true /\ clipboard w1 = Some p /\ timers w1 = [(2000, false)] /\
  copied (fireTimer w1) = false /\ clipboard (fireTimer w1) = Some p /\
  timers (fireTimer w1) = [] /\ hostCalls (fireTimer w1) = hostCalls w.
Proof.
  intros Hp Ht. unfold handleCopyPath.
  rewrite (AppFacts.truthy_true p Hp). unfold fireTimer; simpl.
  rewrite Ht. simpl. auto 10.
Qed.

Lemma copied_indicator_reverts_witness :
  let w1 := handleCopyPath (Some "/docs/a.docx") initial in
  copied w1 = true /\ clipboard w1 = Some "/docs/a.docx" /\
  timers w1 = [(2000, false)] /\
  copied (fireTimer w1) = false /\
  clipboard (fireTimer w1) = Some "/docs/a.docx" /\
  timers (fireTimer w1) = [] /\ hostCalls (fireTimer w1) = hostCalls initial.
Proof.
  apply (copied_indicator_reverts "/docs/a.docx" initial);
    [discriminate | reflexivity].
Defined.

(** X12. No timer is ever cancelled: when the path is copied again while
    the indicator is on, the timer of the first copy still fires first and
    turns the indicator off, although the second copy is more recent; the
    second timer is left pending. *)
Theorem second_copy_reverts_early (p : string) (w : world) :
  p <> "" -> timers w = [] ->
  let w2 := handleCopyPath (Some p) (handleCopyPath (Some p) w) in
  copied w2 = true /\
  copied (fireTimer w2) = false /\ timers (fireTimer w2) = [(2000, false)].
Proof.
  intros Hp Ht. unfold handleCopyPath.
  rewrite (AppFacts.truthy_true p Hp). unfold fireTimer; simpl.
  rewrite Ht. simpl. auto.
Qed.

Lemma second_copy_reverts_early_witness :
  let w2 := handleCopyPath (Some "/a.docx")
              (handleCopyPath (Some "/a.docx") initial) in
  copied w2 = true /\
  copied (fireTimer w2) = false /\ timers (fireTimer w2) = [(2000, false)].
Proof.
  apply (second_copy_reverts_early "/a.docx" initial);
    [discriminate | reflexivity].
Defined.

(** X13. The actions of the result box do nothing without a result: with
    no output path, or the empty one, copying leaves the clipboard, the
    indicator and the timers as they are, and neither open action sends a
    request to the host; nor does one when [window.electronAPI] is
    missing. *)
Theorem no_result_no_action (o : option string) (api : bool) (w : world) :
  Js.truthy_opt o = false ->
  handleCopyPath o w = w /\
  handleOpenFile o api w = w /\ handleOpenFolder o api w = w /\
  (forall o', handleOpenFile o' false w = w /\ handleOpenFolder o' false w = w).
Proof.
  intros H. unfold handleCopyPath, handleOpenFile, handleOpenFolder.
  destruct o as [p|]; simpl in H; rewrite ?H; simpl; repeat split;
    try reflexivity;
    destruct o' as [p'|]; try reflexivity;
    now rewrite andb_false_r.
Qed.

Lemma no_result_no_action_witness :
  handleCopyPath (Some "") initial = initial.
Proof.
  apply (proj1 (no_result_no_action (Some "") true initial eq_refl)).
Defined.

End ConverterFacts.

(** ** From the renderer to the handlers of the main process *)

Module IpcFacts.

Import Main MainProcess.

(** X14. Every function of [window.electronAPI] reaches a handler of the
    main process, with the path it was given: the two open actions of the
    result box end in [shell.openPath] and [shell.showItemInFolder] of
    that path, and a conversion request in the [convert-file] handler. *)
Theorem electronAPI_reaches_handlers (env : Env) (filePath : string)
  (settings : gmap string Js.Value) :
  handle env (Preload.convertFile filePath settings)
    = Some (Settles (convertFile env filePath settings)) /\
  handle env (Preload.deliver (Converter.OpenFile filePath))
    = Some (Shell (OpenPath filePath)) /\
  handle env (Preload.deliver (Converter.OpenFolder filePath))
    = Some (Shell (ShowItemInFolder filePath)).
Proof. repeat split. Qed.

End IpcFacts.

(** ** A session of edits of the settings *)

Module ControlsFacts.

Import Js Settings Controls.

Lemma current_handleChange (key value : string) (st : store) :
  current (handleChange key value st)
    = <[key := VNum (parseFloat value)]> (current st).
Proof.
  unfold current at 1, deref.
  now rewrite SettingsFacts.handleChange_object.
Qed.

(** X15. After a session of edits every field holds the parsed value of
    its last edit, and a field that was not edited holds what it held
    before: an edit of one control never reaches another field, and of two
    edits of one control the later wins. *)
Theorem field_holds_last_edit (edits : list (string * string)) (st : store)
  (key : string) :
  current (changes edits st) !! key =
    match lastEdit key edits with
    | Some value => Some (VNum (parseFloat value))
    | None => current st !! key
    end.
Proof.
  revert st; induction edits as [|[k v] edits IH]; intros st; simpl;
    [reflexivity|].
  rewrite IH. destruct (lastEdit key edits); [reflexivity|].
  rewrite current_handleChange.
  destruct (String.eqb_spec k key) as [-> | Hne].
  - apply lookup_insert_eq.
  - now apply lookup_insert_ne.
Qed.

(** The eight fields of the initial settings. *)
Lemma initial_fields :
  dom (current initialStore) = list_to_set keys /\
  forall k, k ∈ numericKeys -> exists n, current initialStore !! k = Some (VNum n).
Proof.
  split.
  - unfold current, deref, initialStore; simpl.
    rewrite lookup_singleton_eq. simpl. unfold initialSettings.
    rewrite dom_list_to_map_L. reflexivity.
  - intros k Hk. unfold numericKeys in Hk.
    repeat (apply elem_of_cons in Hk as [-> | Hk]; [eexists; reflexivity|]).
    now apply elem_of_nil in Hk.
Qed.

(** X16. The settings object keeps its shape through a session: after any
    edits made with the eight controls, starting from the initial settings,
    the object has exactly the eight fields, and each of the seven numeric
    fields holds a number (which may be [NaN]), never a string. *)
Theorem settings_keep_shape (edits : list (string * string)) :
  Forall (fun e => e.1 ∈ keys) edits ->
  let obj := current (changes edits initialStore) in
  dom obj = list_to_set keys /\
  forall k, k ∈ numericKeys -> exists n, obj !! k = Some (VNum n).
Proof.
  intros Hedits. simpl.
  pose proof initial_fields as Hinit. revert Hinit.
  generalize initialStore as st.
  induction Hedits as [|[k v] edits Hk _ IH]; intros st [Hdom Hnum];
    simpl; [auto|].
  apply IH. rewrite current_handleChange. split.
  - rewrite dom_insert_L, Hdom. simpl in Hk.
    apply (elem_of_list_to_set (C := gset string)) in Hk.
    now apply subseteq_union_1_L, singleton_subseteq_l.
  - intros k' Hk'. destruct (String.eqb_spec k k') as [-> | Hne].
    + rewrite lookup_insert_eq. eauto.
    + rewrite lookup_insert_ne by assumption. auto.
Qed.

Lemma settings_keep_shape_witness :
  let obj := current (changes [("fontFamily", "Arial"); ("marginTop", "")]
                        initialStore) in
  dom obj = list_to_set keys /\
  forall k, k ∈ numericKeys -> exists n, obj !! k = Some (VNum n).
Proof.
  apply (settings_keep_shape [("fontFamily", "Arial"); ("marginTop", "")]).
  repeat constructor.
Defined.

(** The heap after one edit. *)
Lemma handleChange_heap (key value : string) (st : store) :
  heap st ⊆ heap (handleChange key value st) /\
  size (heap (handleChange key value st)) = S (size (heap st)).
Proof.
  unfold handleChange, spreadWith; simpl.
  assert (heap st !! fresh (dom (heap st)) = None) as Hf
    by apply not_elem_of_dom, is_fresh.
  split.
  - now apply insert_subseteq.
  - now apply map_size_insert_None.
Qed.

(** X17. Every edit allocates exactly one settings object and none is ever
    overwritten or dropped: after a session the heap holds all the objects
    it held before, unchanged, and one more for each edit. *)
Theorem edits_only_allocate (edits : list (string * string)) (st : store) :
  heap st ⊆ heap (changes edits st) /\
  size (heap (changes edits st)) = size (heap st) + length edits.
Proof.
  revert st; induction edits as [|[k v] edits IH]; intros st; simpl.
  - split; [reflexivity | lia].
  - destruct (IH (handleChange k v st)) as [Hsub Hsize].
    destruct (handleChange_heap k v st) as [Hsub1 Hsize1].
    split; [now transitivity (heap (handleChange k v st))|].
    rewrite Hsize, Hsize1. lia.
Qed.

End ControlsFacts.

(** ** Text typed in a field *)

Module ParseFacts.

Import Js Settings Controls.

(** A value that begins with a letter has no white space to skip. *)
Lemma trimStart_letter (fuel : nat) (c : ascii) (rest : string) :
  (let n := N_of_ascii c in
   (65 <=? n) && (n <=? 90) || (97 <=? n) && (n <=? 122))%N = true ->
  trimStart fuel (String c rest) = String c rest.
Proof.
  intros H. destruct fuel as [|fuel]; [reflexivity|].
  destruct c as [[] [] [] [] [] [] [] []]; try discriminate H; reflexivity.
Qed.

(** It is not a number, unless it is [Infinity]. *)
Lemma parseFloat_letter (c : ascii) (rest : string) :
  (let n := N_of_ascii c in
   (65 <=? n) && (n <=? 90) || (97 <=? n) && (n <=? 122))%N = true ->
  stripPrefix "Infinity" (String c rest) = None ->
  parseFloat (String c rest) = NaN.
Proof.
  intros H Hinf. unfold parseFloat. rewrite trimStart_letter by assumption.
  destruct c as [[] [] [] [] [] [] [] []]; try discriminate H;
    cbn [sign]; rewrite Hinf; reflexivity.
Qed.

(** X18. Nothing typed or chosen is rejected: a value that begins with a
    letter (and is not [Infinity...]) is stored as [NaN] in the field,
    whatever the field. *)
Theorem text_is_stored_as_NaN (key : string) (c : ascii) (rest : string)
  (st : store) :
  (let n := N_of_ascii c in
   (65 <=? n) && (n <=? 90) || (97 <=? n) && (n <=? 122))%N = true ->
  stripPrefix "Infinity" (String c rest) = None ->
  current (handleChange key (String c rest) st) !! key = Some (VNum NaN).
Proof.
  intros H Hinf. rewrite ControlsFacts.current_handleChange.
  rewrite lookup_insert_eq. now rewrite parseFloat_letter.
Qed.

Lemma text_is_stored_as_NaN_witness :
  current (handleChange "fontSize" "large" initialStore) !! "fontSize"
    = Some (VNum NaN).
Proof.
  apply (text_is_stored_as_NaN "fontSize" "l" "arge" initialStore);
    reflexivity.
Defined.

End ParseFacts.

(** ** Numbers typed in a field *)

Module NumeralFacts.

Import Js Settings Controls.










End NumeralFacts.
